(** * ipamd/rpc_handler.go: the gRPC front end of L-IPAMD

    A shallow embedding of [server.AddNetwork], [server.DelNetwork],
    [IPAMContext.RunRPCHandler] and [IPAMContext.shutdownListener], and the
    properties of the address-lifecycle protocol and of the shutdown
    hand-shake proved on it.

    Conventions of the embedding.
    - A Go [error] is [option error_value]; [None] is [nil].  Errors are
      compared by identity in the source ([err == datastore.ErrUnknownPod]),
      so the sentinel is a constructor of its own.
    - A Go [int] is a [Z]; the conversion [int32(x)] is written out as a
      wrap-around.
    - A [*string] held in a slice is an [option string]; [None] is the nil
      pointer and dereferencing it panics.
    - The handlers run in a state monad over [World] whose results are
      either a returned value or a panic.
    - The collaborators that live in other packages (the data store, the
      AWS client, the network client, the socket and gRPC runtime) are
      interfaces: type classes over an abstract state.  Every call on one
      of them is also recorded, in order, in the [calls] of the world.
    - The goroutine of [shutdownListener] is a small machine that runs one
      statement per step; a process is a schedule of such steps, of
      signals and of RPCs, each RPC handled in one piece. *)

From stdpp Require Import base numbers option list strings gmap.

Set Default Proof Using "Type".

(** ** Errors *)

Inductive error_value : Type :=
  | ErrUnknownPod                 (* datastore.ErrUnknownPod *)
  | ErrOther (msg : string)       (* any other error value *)
  | ErrWrap (cause : error_value) (msg : string).  (* errors.Wrap(cause, msg) *)

#[global] Instance error_value_eq_dec : EqDecision error_value.
Proof. solve_decision. Defined.

Abbreviation error := (option error_value).

Definition nil_error : error := None.
Definition datastore_ErrUnknownPod : error := Some ErrUnknownPod.

(** [a == b] on error values. *)
Definition error_eqb (a b : error) : bool := bool_decide (a = b).

(** [errors.Wrap]: nil stays nil, anything else is wrapped. *)
Definition errors_Wrap (err : error) (msg : string) : error :=
  match err with
  | None => None
  | Some e => Some (ErrWrap e msg)
  end.

(** ** Integers *)

(** [int32(x)] for a Go [int]: the low 32 bits, read as two's complement. *)
Definition int32 (x : Z) : Z := ((x + 2 ^ 31) `mod` 2 ^ 32 - 2 ^ 31)%Z.

(** ** Messages of the rpc package *)

(** k8sapi.K8SPodInfo, with the fields this file sets; a field left out of
    a composite literal has its zero value, the empty string.  The
    messages below are those of the generated rpc package, with the
    fields the handlers read and write. *)
Record K8SPodInfo : Type := mkPodInfo {
  Name : string;
  Namespace : string;
  Container : string
}.

#[global] Instance K8SPodInfo_eq_dec : EqDecision K8SPodInfo.
Proof. solve_decision. Defined.

Module AddNetworkRequest.
Record t : Type := mk {
  K8S_POD_NAME : string;
  K8S_POD_NAMESPACE : string;
  K8S_POD_INFRA_CONTAINER_ID : string;
  Netns : string;
  IfName : string
}.
End AddNetworkRequest.

Module AddNetworkReply.
Record t : Type := mk {
  Success : bool;
  IPv4Addr : string;
  IPv4Subnet : string;
  DeviceNumber : Z;
  UseExternalSNAT : bool;
  VPCcidrs : list string
}.
End AddNetworkReply.

Module DelNetworkRequest.
Record t : Type := mk {
  K8S_POD_NAME : string;
  K8S_POD_NAMESPACE : string;
  K8S_POD_INFRA_CONTAINER_ID : string;
  IPv4Addr : string;
  Reason : string
}.
End DelNetworkRequest.

Module DelNetworkReply.
Record t : Type := mk {
  Success : bool;
  IPv4Addr : string;
  DeviceNumber : Z
}.
End DelNetworkReply.

(** ** Logging *)

Inductive LogLevel : Type := LvlDebug | LvlInfo | LvlError.

Inductive LogArg : Type :=
  | AStr (s : string)
  | AInt (n : Z)
  | AErr (e : error).

(** A log call keeps its format and its arguments; nothing is rendered. *)
Record LogEntry : Type := mkLog {
  level : LogLevel;
  format : string;
  args : list LogArg
}.

(** ** Signals *)

Inductive Signal : Type := SIGINT | SIGTERM.

#[global] Instance Signal_eq_dec : EqDecision Signal.
Proof. solve_decision. Defined.

(** ** Collaborators *)

(** datastore.DataStore: both calls return (address, device number, error)
    and may change the store. *)
Class DataStoreAPI (DS : Type) : Type := {
  AssignPodIPv4Address : K8SPodInfo → DS → (string * Z * error) * DS;
  UnassignPodIPv4Address : K8SPodInfo → DS → (string * Z * error) * DS
}.

(** awsutils.APIs: the VPC ranges come as a slice of string pointers. *)
Class AWSAPIs (AWS : Type) : Type := {
  GetVPCIPv4CIDRs : AWS → list (option string) * AWS
}.

(** networkutils.NetworkAPIs. *)
Class NetworkAPIs (NET : Type) : Type := {
  UseExternalSNAT : NET → bool * NET;
  GetExcludeSNATCIDRs : NET → list string * NET
}.

(** What [grpc.Server.Serve] does from the caller's side: it blocks for
    good, or it comes back with an error value (nil after a stop). *)
Inductive ServeResult : Type :=
  | ServeBlocks
  | ServeReturns (err : error).

(** The socket and gRPC runtime. *)
Class Runtime (OS : Type) : Type := {
  net_Listen : string → string → OS → error * OS;
  grpc_Serve : OS → ServeResult * OS
}.

(** The calls made on the collaborators, in order. *)
Inductive Call : Type :=
  | CallAssign (k : K8SPodInfo)
  | CallUnassign (k : K8SPodInfo)
  | CallGetVPCIPv4CIDRs
  | CallUseExternalSNAT
  | CallGetExcludeSNATCIDRs
  | CallListen (network address : string)
  | CallServe.

#[global] Instance Call_eq_dec : EqDecision Call.
Proof. solve_decision. Defined.

Definition is_unassign (c : Call) : bool :=
  match c with CallUnassign _ => true | _ => false end.

(** ** The gRPC server object and the shutdown goroutine *)

Record GrpcServer : Type := mkServer {
  services : list string;            (* registered services *)
  health : gmap string bool;         (* statuses set with SetServingStatus *)
  stopped : bool                     (* Stop or GracefulStop was called *)
}.

(** Where the goroutine running [shutdownListener] stands. *)
Inductive ListenerPC : Type :=
  | AtLogSetup
  | AtMakeChan
  | AtNotifyINT
  | AtNotifyTERM
  | AtReceive
  | AtLogReceived
  | AtSetTerminating
  | Exited.

#[global] Instance ListenerPC_eq_dec : EqDecision ListenerPC.
Proof. solve_decision. Defined.

Record Listener : Type := mkListener {
  pc : ListenerPC;
  sig_buf : list Signal;             (* the buffer of [sig], capacity 1 *)
  notified : list Signal             (* signals relayed to [sig] *)
}.

Definition new_listener : Listener :=
  {| pc := AtLogSetup; sig_buf := []; notified := [] |}.

(** ** The world the handlers run in *)

Section World.
Context {DS AWS NET OS : Type}.

(** ipamd.IPAMContext, with the fields this file reaches.  [terminating]
    is the Termination State of the spec, a boolean that starts false; the
    struct itself is declared in ipamd.go. *)
Record IPAMContext : Type := mkContext {
  dataStore : DS;
  awsClient : AWS;
  networkClient : NET;
  terminating : bool
}.

Record World : Type := mkWorld {
  ipamContext : IPAMContext;
  addIPCnt : N;                       (* prometheus counter (ipamd.go) *)
  delIPCnt : gmap string N;           (* counter vector, by reason (ipamd.go) *)
  logs : list LogEntry;
  calls : list Call;
  os : OS;
  grpcServer : option GrpcServer;     (* the server RunRPCHandler builds *)
  listeners : list Listener;          (* the goroutines it starts *)
  alive : bool                        (* the process has not been killed *)
}.

(** What running a piece of code gives: a value and the world after, or
    a panic and the world at that point. *)
Inductive outcome (A : Type) : Type :=
  | Returned (a : A) (w : World)
  | Panicked (w : World).
Global Arguments Returned {A} a w.
Global Arguments Panicked {A} w.

Definition M (A : Type) : Type := World → outcome A.

Definition ret {A} (a : A) : M A := fun w => Returned a w.

Definition bind {A B} (m : M A) (f : A → M B) : M B :=
  fun w => match m w with
           | Returned a w' => f a w'
           | Panicked w' => Panicked w'
           end.

Definition panic {A} : M A := fun w => Panicked w.

Definition get_world : M World := fun w => Returned w w.
Definition modify (f : World → World) : M unit := fun w => Returned tt (f w).
End World.

Global Arguments IPAMContext : clear implicits.
Global Arguments World : clear implicits.
Global Arguments outcome : clear implicits.
Global Arguments M : clear implicits.

Notation "'let*' x ':=' m 'in' k" := (bind m (fun x => k))
  (at level 10, x name, m at level 100, k at level 200, only parsing).
Notation "'let*' ' p ':=' m 'in' k" :=
  (bind m (fun x => match x with p => k end))
  (at level 10, p pattern, m at level 100, k at level 200, only parsing).

(** ** Record updates *)

Section Updates.
Context {DS AWS NET OS : Type}.
Implicit Types (w : World DS AWS NET OS) (c : IPAMContext DS AWS NET).

Definition set_dataStore (ds : DS) c : IPAMContext DS AWS NET :=
  mkContext ds (awsClient c) (networkClient c) (terminating c).
Definition set_awsClient (a : AWS) c : IPAMContext DS AWS NET :=
  mkContext (dataStore c) a (networkClient c) (terminating c).
Definition set_networkClient (n : NET) c : IPAMContext DS AWS NET :=
  mkContext (dataStore c) (awsClient c) n (terminating c).
Definition set_terminating (b : bool) c : IPAMContext DS AWS NET :=
  mkContext (dataStore c) (awsClient c) (networkClient c) b.

Definition set_ipamContext c w : World DS AWS NET OS :=
  mkWorld c (addIPCnt w) (delIPCnt w) (logs w) (calls w) (os w)
          (grpcServer w) (listeners w) (alive w).
Definition set_addIPCnt (n : N) w : World DS AWS NET OS :=
  mkWorld (ipamContext w) n (delIPCnt w) (logs w) (calls w) (os w)
          (grpcServer w) (listeners w) (alive w).
Definition set_delIPCnt (m : gmap string N) w : World DS AWS NET OS :=
  mkWorld (ipamContext w) (addIPCnt w) m (logs w) (calls w) (os w)
          (grpcServer w) (listeners w) (alive w).
Definition set_logs (l : list LogEntry) w : World DS AWS NET OS :=
  mkWorld (ipamContext w) (addIPCnt w) (delIPCnt w) l (calls w) (os w)
          (grpcServer w) (listeners w) (alive w).
Definition set_calls (l : list Call) w : World DS AWS NET OS :=
  mkWorld (ipamContext w) (addIPCnt w) (delIPCnt w) (logs w) l (os w)
          (grpcServer w) (listeners w) (alive w).
Definition set_os (o : OS) w : World DS AWS NET OS :=
  mkWorld (ipamContext w) (addIPCnt w) (delIPCnt w) (logs w) (calls w) o
          (grpcServer w) (listeners w) (alive w).
Definition set_grpcServer (s : option GrpcServer) w : World DS AWS NET OS :=
  mkWorld (ipamContext w) (addIPCnt w) (delIPCnt w) (logs w) (calls w) (os w)
          s (listeners w) (alive w).
Definition set_listeners (l : list Listener) w : World DS AWS NET OS :=
  mkWorld (ipamContext w) (addIPCnt w) (delIPCnt w) (logs w) (calls w) (os w)
          (grpcServer w) l (alive w).
Definition set_alive (b : bool) w : World DS AWS NET OS :=
  mkWorld (ipamContext w) (addIPCnt w) (delIPCnt w) (logs w) (calls w) (os w)
          (grpcServer w) (listeners w) b.

Definition record_call (c : Call) w : World DS AWS NET OS :=
  set_calls (calls w ++ [c]) w.
End Updates.

(** ** The statements the handlers are made of *)

Section Primitives.
Context {DS AWS NET OS : Type}.
Context `{!DataStoreAPI DS, !AWSAPIs AWS, !NetworkAPIs NET, !Runtime OS}.
Local Abbreviation W := (World DS AWS NET OS).
Local Abbreviation Mon := (M DS AWS NET OS).

(** seelog: [log.Infof], [log.Debugf], [log.Errorf], [log.Info]. *)
Definition log_write (l : LogLevel) (f : string) (a : list LogArg) : Mon unit :=
  modify (fun w => set_logs (logs w ++ [mkLog l f a]) w).
Definition log_Infof := log_write LvlInfo.
Definition log_Debugf := log_write LvlDebug.
Definition log_Errorf := log_write LvlError.
Definition log_Info (a : list LogArg) : Mon unit := log_write LvlInfo "" a.

(** [*p] for a string pointer. *)
Definition deref (p : option string) : Mon string :=
  match p with
  | Some s => ret s
  | None => panic
  end.

(** [s.ipamContext.dataStore.AssignPodIPv4Address(k)] *)
Definition dataStore_Assign (k : K8SPodInfo) : Mon (string * Z * error) :=
  fun w =>
    let '(r, ds) := AssignPodIPv4Address k (dataStore (ipamContext w)) in
    Returned r (record_call (CallAssign k)
                  (set_ipamContext (set_dataStore ds (ipamContext w)) w)).

(** [s.ipamContext.dataStore.UnassignPodIPv4Address(k)] *)
Definition dataStore_Unassign (k : K8SPodInfo) : Mon (string * Z * error) :=
  fun w =>
    let '(r, ds) := UnassignPodIPv4Address k (dataStore (ipamContext w)) in
    Returned r (record_call (CallUnassign k)
                  (set_ipamContext (set_dataStore ds (ipamContext w)) w)).

(** [s.ipamContext.awsClient.GetVPCIPv4CIDRs()] *)
Definition awsClient_GetVPCIPv4CIDRs : Mon (list (option string)) :=
  fun w =>
    let '(r, a) := GetVPCIPv4CIDRs (awsClient (ipamContext w)) in
    Returned r (record_call CallGetVPCIPv4CIDRs
                  (set_ipamContext (set_awsClient a (ipamContext w)) w)).

(** [s.ipamContext.networkClient.UseExternalSNAT()] *)
Definition networkClient_UseExternalSNAT : Mon bool :=
  fun w =>
    let '(r, n) := UseExternalSNAT (networkClient (ipamContext w)) in
    Returned r (record_call CallUseExternalSNAT
                  (set_ipamContext (set_networkClient n (ipamContext w)) w)).

(** [s.ipamContext.networkClient.GetExcludeSNATCIDRs()] *)
Definition networkClient_GetExcludeSNATCIDRs : Mon (list string) :=
  fun w =>
    let '(r, n) := GetExcludeSNATCIDRs (networkClient (ipamContext w)) in
    Returned r (record_call CallGetExcludeSNATCIDRs
                  (set_ipamContext (set_networkClient n (ipamContext w)) w)).

(** [addIPCnt.Inc()] *)
Definition addIPCnt_Inc : Mon unit :=
  modify (fun w => set_addIPCnt (addIPCnt w + 1)%N w).

(** [delIPCnt.With(prometheus.Labels{"reason": reason}).Inc()]: a label
    not seen before starts from zero. *)
Definition delIPCnt_With_Inc (reason : string) : Mon unit :=
  modify (fun w =>
    set_delIPCnt (<[reason := (default 0%N (delIPCnt w !! reason) + 1)%N]> (delIPCnt w)) w).

(** [for _, x := range xs { acc = body(acc, x) }] *)
Fixpoint for_range {A B : Type} (xs : list A) (body : B → A → Mon B) (acc : B) : Mon B :=
  match xs with
  | [] => ret acc
  | x :: xs' => let* acc' := body acc x in for_range xs' body acc'
  end.

(** ** server.AddNetwork *)

Definition AddNetwork (in_ : AddNetworkRequest.t)
  : Mon (AddNetworkReply.t * error) :=
  let* _ := log_Infof
    "Received AddNetwork for NS %s, Pod %s, NameSpace %s, Container %s, ifname %s"
    [AStr (AddNetworkRequest.Netns in_);
     AStr (AddNetworkRequest.K8S_POD_NAME in_);
     AStr (AddNetworkRequest.K8S_POD_NAMESPACE in_);
     AStr (AddNetworkRequest.K8S_POD_INFRA_CONTAINER_ID in_);
     AStr (AddNetworkRequest.IfName in_)] in
  let* '(addr, deviceNumber, err) := dataStore_Assign
    {| Name := AddNetworkRequest.K8S_POD_NAME in_;
       Namespace := AddNetworkRequest.K8S_POD_NAMESPACE in_;
       Container := AddNetworkRequest.K8S_POD_INFRA_CONTAINER_ID in_ |} in
  let* vpc := awsClient_GetVPCIPv4CIDRs in
  let* pbVPCcidrs := for_range vpc (fun pbVPCcidrs cidr =>
    let* s := deref cidr in
    let* _ := log_Debugf "VPC CIDR %s" [AStr s] in
    let* s' := deref cidr in
    ret (pbVPCcidrs ++ [s'])) [] in
  let* useExternalSNAT := networkClient_UseExternalSNAT in
  let* pbVPCcidrs :=
    if negb useExternalSNAT then
      let* excl := networkClient_GetExcludeSNATCIDRs in
      for_range excl (fun pbVPCcidrs cidr =>
        let* _ := log_Debugf "CIDR SNAT Exclusion %s" [AStr cidr] in
        ret (pbVPCcidrs ++ [cidr])) pbVPCcidrs
    else ret pbVPCcidrs in
  let resp := {|
    AddNetworkReply.Success := error_eqb err nil_error;
    AddNetworkReply.IPv4Addr := addr;
    AddNetworkReply.IPv4Subnet := "";
    AddNetworkReply.DeviceNumber := int32 deviceNumber;
    AddNetworkReply.UseExternalSNAT := useExternalSNAT;
    AddNetworkReply.VPCcidrs := pbVPCcidrs |} in
  let* _ := log_Infof "Send AddNetworkReply: IPv4Addr %s, DeviceNumber: %d, err: %v"
    [AStr addr; AInt deviceNumber; AErr err] in
  let* _ := addIPCnt_Inc in
  ret (resp, nil_error).

(** ** server.DelNetwork *)

Definition DelNetwork (in_ : DelNetworkRequest.t)
  : Mon (DelNetworkReply.t * error) :=
  let* _ := log_Infof
    "Received DelNetwork for IP %s, Pod %s, Namespace %s, Container %s"
    [AStr (DelNetworkRequest.IPv4Addr in_);
     AStr (DelNetworkRequest.K8S_POD_NAME in_);
     AStr (DelNetworkRequest.K8S_POD_NAMESPACE in_);
     AStr (DelNetworkRequest.K8S_POD_INFRA_CONTAINER_ID in_)] in
  let* _ := delIPCnt_With_Inc (DelNetworkRequest.Reason in_) in
  let* '(ip, deviceNumber, err) := dataStore_Unassign
    {| Name := DelNetworkRequest.K8S_POD_NAME in_;
       Namespace := DelNetworkRequest.K8S_POD_NAMESPACE in_;
       Container := DelNetworkRequest.K8S_POD_INFRA_CONTAINER_ID in_ |} in
  let* '(ip, deviceNumber, err) :=
    if negb (error_eqb err nil_error) && error_eqb err datastore_ErrUnknownPod then
      dataStore_Unassign
        {| Name := DelNetworkRequest.K8S_POD_NAME in_;
           Namespace := DelNetworkRequest.K8S_POD_NAMESPACE in_;
           Container := "" |}
    else ret (ip, deviceNumber, err) in
  let* _ := log_Infof "Send DelNetworkReply: IPv4Addr %s, DeviceNumber: %d, err: %v"
    [AStr ip; AInt deviceNumber; AErr err] in
  let success := true in
  let success :=
    if negb (error_eqb err nil_error) && negb (error_eqb err datastore_ErrUnknownPod)
    then false else success in
  ret ({| DelNetworkReply.Success := success;
          DelNetworkReply.IPv4Addr := ip;
          DelNetworkReply.DeviceNumber := int32 deviceNumber |}, nil_error).

(** ** IPAMContext.RunRPCHandler *)

Definition ipamdgRPCaddress : string := "127.0.0.1:50051".

(** [net.Listen(network, address)]; the listener value itself is kept
    by the runtime. *)
Definition os_net_Listen (network address : string) : Mon error :=
  fun w =>
    let '(err, o) := net_Listen network address (os w) in
    Returned err (record_call (CallListen network address) (set_os o w)).

(** [s.Serve(lis)] *)
Definition server_Serve : Mon ServeResult :=
  fun w =>
    let '(r, o) := grpc_Serve (os w) in
    Returned r (record_call CallServe (set_os o w)).

(** [grpc.NewServer()] *)
Definition grpc_NewServer : Mon unit :=
  modify (set_grpcServer (Some {| services := []; health := ∅; stopped := false |})).

Definition on_server (f : GrpcServer → GrpcServer) : Mon unit :=
  modify (fun w => set_grpcServer (f <$> grpcServer w) w).

(** [pb.RegisterCNIBackendServer], [healthpb.RegisterHealthServer],
    [reflection.Register] *)
Definition register_service (name : string) : Mon unit :=
  on_server (fun s => mkServer (services s ++ [name]) (health s) (stopped s)).

(** [hs.SetServingStatus(name, status)] *)
Definition hs_SetServingStatus (name : string) (serving : bool) : Mon unit :=
  on_server (fun s => mkServer (services s) (<[name := serving]> (health s)) (stopped s)).

(** [go c.shutdownListener(s)]: one more goroutine, at its first
    statement. *)
Definition go_shutdownListener : Mon unit :=
  modify (fun w => set_listeners (listeners w ++ [new_listener]) w).

(** A call that may never come back. *)
Inductive Completion (A : Type) : Type :=
  | Forever
  | Finished (a : A).
Global Arguments Forever {A}.
Global Arguments Finished {A} a.

Definition RunRPCHandler : Mon (Completion error) :=
  let* _ := log_Info [AStr "Serving RPC Handler on "; AStr ipamdgRPCaddress] in
  let* err := os_net_Listen "tcp" ipamdgRPCaddress in
  if negb (error_eqb err nil_error) then
    let* _ := log_Errorf "Failed to listen gRPC port: %v" [AErr err] in
    ret (Finished (errors_Wrap err "ipamd: failed to listen to gRPC port"))
  else
    let* _ := grpc_NewServer in
    let* _ := register_service "rpc.CNIBackend" in
    let* _ := hs_SetServingStatus "grpc.health.v1.aws-node" true in
    let* _ := register_service "grpc.health.v1.Health" in
    let* _ := register_service "grpc.reflection.v1alpha.ServerReflection" in
    let* _ := go_shutdownListener in
    let* r := server_Serve in
    match r with
    | ServeBlocks => ret Forever
    | ServeReturns err =>
        if negb (error_eqb err nil_error) then
          let* _ := log_Errorf "Failed to start server on gRPC port: %v" [AErr err] in
          ret (Finished (errors_Wrap err "ipamd: failed to start server on gPRC port"))
        else ret (Finished nil_error)
    end.

(** ** IPAMContext.shutdownListener *)

(** Modelled from the spec: [IPAMContext.setTerminating] is defined in
    ipamd.go, which is not among the sources.  The spec (4.2) has it set
    the Termination State to true and mutate nothing else. *)
Definition setTerminating (c : IPAMContext DS AWS NET) : IPAMContext DS AWS NET :=
  set_terminating true c.

(** The goroutine runs one statement at a time; [<-sig] waits while the
    buffer of [sig] is empty. *)
Definition shutdownListener_next (l : Listener) (w : W) : Listener * W :=
  match pc l with
  | AtLogSetup =>
      (* log.Info("Setting up shutdown hook.") *)
      (mkListener AtMakeChan (sig_buf l) (notified l),
       set_logs (logs w ++ [mkLog LvlInfo "" [AStr "Setting up shutdown hook."]]) w)
  | AtMakeChan =>
      (* sig := make(chan os.Signal, 1) *)
      (mkListener AtNotifyINT [] (notified l), w)
  | AtNotifyINT =>
      (* signal.Notify(sig, syscall.SIGINT) *)
      (mkListener AtNotifyTERM (sig_buf l) (notified l ++ [SIGINT]), w)
  | AtNotifyTERM =>
      (* signal.Notify(sig, syscall.SIGTERM) *)
      (mkListener AtReceive (sig_buf l) (notified l ++ [SIGTERM]), w)
  | AtReceive =>
      (* <-sig *)
      match sig_buf l with
      | [] => (l, w)
      | _ :: rest => (mkListener AtLogReceived rest (notified l), w)
      end
  | AtLogReceived =>
      (* log.Info("Received shutdown signal, setting 'terminating' to true") *)
      (mkListener AtSetTerminating (sig_buf l) (notified l),
       set_logs (logs w ++ [mkLog LvlInfo ""
         [AStr "Received shutdown signal, setting 'terminating' to true"]]) w)
  | AtSetTerminating =>
      (* c.setTerminating() *)
      (mkListener Exited (sig_buf l) (notified l),
       set_ipamContext (setTerminating (ipamContext w)) w)
  | Exited => (l, w)
  end.

(** Goroutine [i] takes its next step. *)
Definition shutdownListener_step (i : nat) (w : W) : W :=
  match listeners w !! i with
  | None => w
  | Some l =>
      let '(l', w') := shutdownListener_next l w in
      set_listeners (<[i := l']> (listeners w')) w'
  end.

(** os/signal: a signal is relayed to every channel registered for it,
    without blocking: a full channel misses it.  A signal nobody is
    registered for takes its default action, which for SIGINT and SIGTERM
    ends the process. *)
Definition relay (s : Signal) (l : Listener) : Listener :=
  if bool_decide (s ∈ notified l) && bool_decide (length (sig_buf l) < 1)%nat
  then mkListener (pc l) (sig_buf l ++ [s]) (notified l)
  else l.

Definition deliver (s : Signal) (w : W) : W :=
  if bool_decide (Exists (fun l => s ∈ notified l) (listeners w))
  then set_listeners (relay s <$> listeners w) w
  else set_alive false w.

(** ** The process: signals, the goroutines and the RPCs, interleaved *)

Inductive Event : Type :=
  | EvSignal (s : Signal)
  | EvListener (i : nat)
  | EvAddNetwork (in_ : AddNetworkRequest.t)
  | EvDelNetwork (in_ : DelNetworkRequest.t)
  | EvRunRPCHandler.

(** A handler that panics takes the process down. *)
Definition after {A} (o : outcome DS AWS NET OS A) : W :=
  match o with
  | Returned _ w => w
  | Panicked w => set_alive false w
  end.

Definition exec (e : Event) (w : W) : W :=
  if alive w then
    match e with
    | EvSignal s => deliver s w
    | EvListener i => shutdownListener_step i w
    | EvAddNetwork in_ => after (AddNetwork in_ w)
    | EvDelNetwork in_ => after (DelNetwork in_ w)
    | EvRunRPCHandler => after (RunRPCHandler w)
    end
  else w.

Definition run (sched : list Event) (w : W) : W := foldl (fun w e => exec e w) w sched.

(** The worlds a schedule goes through, the first one included. *)
Fixpoint history (sched : list Event) (w : W) : list W :=
  match sched with
  | [] => [w]
  | e :: sched' => w :: history sched' (exec e w)
  end.

End Primitives.

(** Brings a world built with the setters to its fields. *)
Ltac world_fields :=
  cbv [bind ret modify log_Infof log_Errorf log_Info log_write addIPCnt_Inc
       delIPCnt_With_Inc grpc_NewServer on_server register_service
       hs_SetServingStatus go_shutdownListener
       set_logs record_call set_calls set_ipamContext set_awsClient set_dataStore
       set_networkClient set_terminating set_addIPCnt set_delIPCnt set_os
       set_grpcServer set_listeners set_alive
       ipamContext addIPCnt delIPCnt logs calls os grpcServer listeners alive
       dataStore awsClient networkClient terminating].

(** ** Scripted collaborators

    Test doubles for the interfaces: each one answers from a script it
    carries, so that the handlers can be run on concrete inputs. *)

Module Scripted.

(** The data store answers each call with the next scripted result. *)
Definition store := list (string * Z * error).

Definition next_result (ds : store) : (string * Z * error) * store :=
  match ds with
  | r :: rest => (r, rest)
  | [] => (("", 0%Z, Some (ErrOther "script exhausted")), [])
  end.

#[global] Instance store_api : DataStoreAPI store :=
  {| AssignPodIPv4Address := fun _ ds => next_result ds;
     UnassignPodIPv4Address := fun _ ds => next_result ds |}.

(** The AWS client holds the VPC ranges. *)
Definition aws := list (option string).

#[global] Instance aws_api : AWSAPIs aws :=
  {| GetVPCIPv4CIDRs := fun a => (a, a) |}.

(** The network client holds the SNAT setting and the exclusions. *)
Definition net := (bool * list string)%type.

#[global] Instance net_api : NetworkAPIs net :=
  {| UseExternalSNAT := fun n => (n.1, n);
     GetExcludeSNATCIDRs := fun n => (n.2, n) |}.

(** The runtime holds what [net.Listen] and [Serve] will answer. *)
Definition runtime := (error * ServeResult)%type.

#[global] Instance runtime_api : Runtime runtime :=
  {| net_Listen := fun _ _ o => (o.1, o);
     grpc_Serve := fun o => (o.2, o) |}.

Definition world (ds : store) (a : aws) (n : net) (o : runtime)
  : World store aws net runtime :=
  {| ipamContext := {| dataStore := ds; awsClient := a; networkClient := n;
                       terminating := false |};
     addIPCnt := 0; delIPCnt := ∅; logs := []; calls := [];
     os := o; grpcServer := None; listeners := []; alive := true |}.

End Scripted.

(** The value a run returned, if it returned. *)
Definition returned {DS AWS NET OS A} (o : outcome DS AWS NET OS A) : option A :=
  match o with
  | Returned a _ => Some a
  | Panicked _ => None
  end.

(** * Properties *)

(** ** What the collaborators answer during one call *)

Section Answers.
Context {DS AWS NET OS : Type}.
Context `{!DataStoreAPI DS, !AWSAPIs AWS, !NetworkAPIs NET, !Runtime OS}.
Implicit Types (w : World DS AWS NET OS).

(** The identity AddNetwork hands to the store. *)
Definition add_identity (in_ : AddNetworkRequest.t) : K8SPodInfo :=
  {| Name := AddNetworkRequest.K8S_POD_NAME in_;
     Namespace := AddNetworkRequest.K8S_POD_NAMESPACE in_;
     Container := AddNetworkRequest.K8S_POD_INFRA_CONTAINER_ID in_ |}.

(** The identities DelNetwork hands to the store: all three fields, and
    name and namespace alone. *)
Definition full_identity (in_ : DelNetworkRequest.t) : K8SPodInfo :=
  {| Name := DelNetworkRequest.K8S_POD_NAME in_;
     Namespace := DelNetworkRequest.K8S_POD_NAMESPACE in_;
     Container := DelNetworkRequest.K8S_POD_INFRA_CONTAINER_ID in_ |}.
Definition fallback_identity (in_ : DelNetworkRequest.t) : K8SPodInfo :=
  {| Name := DelNetworkRequest.K8S_POD_NAME in_;
     Namespace := DelNetworkRequest.K8S_POD_NAMESPACE in_;
     Container := "" |}.

(** The answer of the store to the assign call of AddNetwork. *)
Definition assign_answer (in_ : AddNetworkRequest.t) w : string * Z * error :=
  (AssignPodIPv4Address (add_identity in_) (dataStore (ipamContext w))).1.

(** The answers of the range provider and of the SNAT policy. *)
Definition vpc_answer w : list (option string) :=
  (GetVPCIPv4CIDRs (awsClient (ipamContext w))).1.
Definition snat_answer w : bool :=
  (UseExternalSNAT (networkClient (ipamContext w))).1.
Definition exclusion_answer w : list string :=
  (GetExcludeSNATCIDRs (UseExternalSNAT (networkClient (ipamContext w))).2).1.

(** The answers of the store to the first unassign call of DelNetwork, and
    to a second one made right after it. *)
Definition first_unassign (in_ : DelNetworkRequest.t) w : string * Z * error :=
  (UnassignPodIPv4Address (full_identity in_) (dataStore (ipamContext w))).1.
Definition second_unassign (in_ : DelNetworkRequest.t) w : string * Z * error :=
  (UnassignPodIPv4Address (fallback_identity in_)
     (UnassignPodIPv4Address (full_identity in_) (dataStore (ipamContext w))).2).1.

(** Whether DelNetwork goes for the second call. *)
Definition retries (in_ : DelNetworkRequest.t) w : bool :=
  bool_decide ((first_unassign in_ w).2 = datastore_ErrUnknownPod).

(** The answer DelNetwork ends with. *)
Definition final_unassign (in_ : DelNetworkRequest.t) w : string * Z * error :=
  if retries in_ w then second_unassign in_ w else first_unassign in_ w.

(** The answers of the runtime to RunRPCHandler. *)
Definition listen_answer w : error :=
  (net_Listen "tcp" ipamdgRPCaddress (os w)).1.
Definition serve_answer w : ServeResult :=
  (grpc_Serve (net_Listen "tcp" ipamdgRPCaddress (os w)).2).1.

End Answers.

(** ** Notions the properties are stated with *)

Section Notions.
Context {DS AWS NET OS : Type}.
Context `{!DataStoreAPI DS, !AWSAPIs AWS, !NetworkAPIs NET, !Runtime OS}.
Implicit Types (w : World DS AWS NET OS) (l : Listener).

(** What the two loops of AddNetwork log for a range. *)
Definition vpc_entry (s : string) : LogEntry := mkLog LvlDebug "VPC CIDR %s" [AStr s].

Definition exclusion_entry (s : string) : LogEntry :=
  mkLog LvlDebug "CIDR SNAT Exclusion %s" [AStr s].

(** The reply AddNetwork builds from the answers it gets. *)
Definition add_reply (in_ : AddNetworkRequest.t) w (base : list string)
  : AddNetworkReply.t :=
  {| AddNetworkReply.Success := error_eqb (assign_answer in_ w).2 nil_error;
     AddNetworkReply.IPv4Addr := (assign_answer in_ w).1.1;
     AddNetworkReply.IPv4Subnet := "";
     AddNetworkReply.DeviceNumber := int32 (assign_answer in_ w).1.2;
     AddNetworkReply.UseExternalSNAT := snat_answer w;
     AddNetworkReply.VPCcidrs :=
       base ++ (if snat_answer w then [] else exclusion_answer w) |}.

(** The reply DelNetwork builds from the answer it ends with. *)
Definition del_reply (in_ : DelNetworkRequest.t) w : DelNetworkReply.t :=
  {| DelNetworkReply.Success :=
       bool_decide ((final_unassign in_ w).2 = nil_error
                    ∨ (final_unassign in_ w).2 = datastore_ErrUnknownPod);
     DelNetworkReply.IPv4Addr := (final_unassign in_ w).1.1;
     DelNetworkReply.DeviceNumber := int32 (final_unassign in_ w).1.2 |}.

(** What RunRPCHandler comes back with, from the answers of the runtime. *)
Definition run_result w : Completion error :=
  match listen_answer w with
  | Some e => Finished (Some (ErrWrap e "ipamd: failed to listen to gRPC port"))
  | None =>
      match serve_answer w with
      | ServeBlocks => Forever
      | ServeReturns (Some e) =>
          Finished (Some (ErrWrap e "ipamd: failed to start server on gPRC port"))
      | ServeReturns None => Finished None
      end
  end.

(** The Termination State. *)
Definition flag w : bool := terminating (ipamContext w).

(** The Termination State along a schedule. *)
Definition flags (sched : list Event) w : list bool := flag <$> history sched w.

(** How often a sequence of booleans goes from false to true, and from
    true to false. *)
Fixpoint rising_edges (bs : list bool) : nat :=
  match bs with
  | [] => 0
  | b :: rest =>
      match rest with
      | [] => 0
      | b' :: _ => (if negb b && b' then 1 else 0) + rising_edges rest
      end
  end.

Fixpoint falling_edges (bs : list bool) : nat :=
  match bs with
  | [] => 0
  | b :: rest =>
      match rest with
      | [] => 0
      | b' :: _ => (if b && negb b' then 1 else 0) + falling_edges rest
      end
  end.

(** Goroutine [i] is about to take a signal out of its channel. *)
Definition receiving (i : nat) w : bool :=
  alive w &&
  match listeners w !! i with
  | Some l => bool_decide (pc l = AtReceive) && bool_decide (sig_buf l ≠ [])
  | None => false
  end.

(** How often goroutine [i] takes a signal out of its channel along a
    schedule. *)
Fixpoint receives (i : nat) (sched : list Event) w : nat :=
  match sched with
  | [] => 0
  | e :: sched' =>
      (match e with
       | EvListener j => if bool_decide (j = i) && receiving i w then 1 else 0
       | _ => 0
       end) + receives i sched' (exec e w)
  end.

(** The event is a step of goroutine [i]. *)
Definition is_step (i : nat) (e : Event) : bool :=
  match e with
  | EvListener j => bool_decide (j = i)
  | _ => false
  end.

(** How often goroutine [i] is scheduled. *)
Fixpoint scheduled (i : nat) (sched : list Event) : nat :=
  match sched with
  | [] => 0
  | e :: sched' => (if is_step i e then 1 else 0) + scheduled i sched'
  end.

(** The event is a signal. *)
Definition is_signal (e : Event) : bool :=
  match e with
  | EvSignal _ => true
  | _ => false
  end.

(** The goroutine has its signal: it is past [<-sig]. *)
Definition past_receive l : bool :=
  match pc l with
  | AtLogReceived | AtSetTerminating | Exited => true
  | _ => false
  end.

(** A goroutine as another event leaves it: untouched, but for a signal
    that may have been put in its empty channel. *)
Definition bystander (e : Event) l l' : Prop :=
  pc l' = pc l ∧ notified l' = notified l
  ∧ (sig_buf l' = sig_buf l
     ∨ (sig_buf l = [] ∧ ∃ s, e = EvSignal s ∧ s ∈ notified l ∧ sig_buf l' = [s])).

(** The goroutine is before or at [<-sig], with nothing in its channel. *)
Definition waiting l : Prop := past_receive l = false ∧ sig_buf l = [].

(** Nothing has happened yet: the Termination State is false and every
    goroutine is waiting. *)
Definition quiet w : Prop := flag w = false ∧ Forall waiting (listeners w).

(** The statements goroutine [i] still has to run before the Termination
    State is true, once it has a signal in its channel. *)
Definition steps_left l : option nat :=
  match pc l with
  | AtReceive => if bool_decide (sig_buf l ≠ []) then Some 3 else None
  | AtLogReceived => Some 2
  | AtSetTerminating => Some 1
  | _ => None
  end.

(** The Termination State is true, or goroutine [i] is at most [n] steps
    from setting it. *)
Definition within (i n : nat) w : Prop :=
  flag w = true
  ∨ ∃ l k, listeners w !! i = Some l ∧ steps_left l = Some k ∧ k ≤ n.

(** The health check RunRPCHandler sets the status of. *)
Definition health_check : string := "grpc.health.v1.aws-node".

(** A server, when there is one, reports [health_check] as serving and
    has not been stopped. *)
Definition serving w : Prop :=
  ∀ s, grpcServer w = Some s → health s !! health_check = Some true ∧ stopped s = false.

(** A goroutine as the statements of shutdownListener leave it: what it
    is registered for follows from where it stands, and its channel holds
    one signal at most. *)
Definition as_coded l : Prop :=
  match pc l with
  | AtLogSetup | AtMakeChan | AtNotifyINT => notified l = [] ∧ sig_buf l = []
  | AtNotifyTERM => notified l = [SIGINT] ∧ length (sig_buf l) ≤ 1
  | AtReceive | AtLogReceived | AtSetTerminating | Exited =>
      notified l = [SIGINT; SIGTERM] ∧ length (sig_buf l) ≤ 1
  end.

(** As [steps_left], with the goroutine that has a signal in its channel
    while it still has its second [signal.Notify] to run. *)
Definition steps_to_flag l : option nat :=
  match pc l with
  | AtNotifyTERM => if bool_decide (sig_buf l ≠ []) then Some 4 else None
  | AtReceive => if bool_decide (sig_buf l ≠ []) then Some 3 else None
  | AtLogReceived => Some 2
  | AtSetTerminating => Some 1
  | _ => None
  end.

Definition on_the_way (i n : nat) w : Prop :=
  flag w = true
  ∨ ∃ l k, listeners w !! i = Some l ∧ steps_to_flag l = Some k ∧ k ≤ n.

(** How many AddNetwork calls a schedule holds, and how many DelNetwork
    calls with a given reason. *)
Fixpoint attach_calls (sched : list Event) : nat :=
  match sched with
  | [] => 0
  | e :: sched' =>
      (match e with EvAddNetwork _ => 1 | _ => 0 end) + attach_calls sched'
  end.

Fixpoint detach_calls (reason : string) (sched : list Event) : nat :=
  match sched with
  | [] => 0
  | e :: sched' =>
      (match e with
       | EvDelNetwork in_ =>
           if bool_decide (DelNetworkRequest.Reason in_ = reason) then 1 else 0
       | _ => 0
       end) + detach_calls reason sched'
  end.

End Notions.

(** ** Scripted worlds *)

(** Requests and worlds to run the handlers on. *)
Definition example_add : AddNetworkRequest.t :=
  AddNetworkRequest.mk "pod-a" "ns1" "c1" "/proc/4242/ns/net" "eth0".

Definition example_del : DelNetworkRequest.t :=
  DelNetworkRequest.mk "pod-a" "ns1" "c1" "10.0.1.5" "PodDeleted".

(** The store assigns 10.0.1.5 on device 1. *)
Definition world_assigned :=
  Scripted.world [("10.0.1.5", 1%Z, nil_error)]
    [Some "10.0.0.0/16"] (false, ["192.168.0.0/16"]) (nil_error, ServeBlocks).

(** The store has no address left. *)
Definition world_exhausted :=
  Scripted.world [("", 0%Z, Some (ErrOther "assignPodIPv4AddressUnsafe: no available IP addresses"))]
    [Some "10.0.0.0/16"; Some "10.1.0.0/16"] (false, ["192.168.0.0/16"])
    (nil_error, ServeBlocks).

(** SNAT is done outside. *)
Definition world_external_snat :=
  Scripted.world [("10.0.1.5", 1%Z, nil_error)]
    [Some "10.0.0.0/16"] (true, ["192.168.0.0/16"]) (nil_error, ServeBlocks).

(** The store knows the pod under neither identity. *)
Definition world_never_attached :=
  Scripted.world [("", 0%Z, datastore_ErrUnknownPod); ("", 0%Z, datastore_ErrUnknownPod)]
    [] (false, []) (nil_error, ServeBlocks).

(** The service is up and its shutdown goroutine waits at [<-sig]. *)
Definition world_serving :=
  run (EvRunRPCHandler :: replicate 4 (EvListener 0)) world_assigned.

(** The goroutine has taken SIGINT and is about to run
    [c.setTerminating()]. *)
Definition world_signalled :=
  run (EvSignal SIGINT :: replicate 2 (EvListener 0)) world_serving.

(** After a restart: the store knows the pod by name and namespace only. *)
Definition world_restarted :=
  Scripted.world [("", 0%Z, datastore_ErrUnknownPod); ("10.0.1.5", 1%Z, nil_error)]
    [] (false, []) (nil_error, ServeBlocks).

(** The second VPC range is a nil pointer. *)
Definition world_nil_range :=
  Scripted.world [("10.0.1.5", 1%Z, nil_error)]
    [Some "10.0.0.0/16"; None] (false, ["192.168.0.0/16"]) (nil_error, ServeBlocks).

(** The store hands out a device number that does not fit 32 bits. *)
Definition world_big_device :=
  Scripted.world [("10.0.1.5", (2 ^ 31)%Z, nil_error)]
    [Some "10.0.0.0/16"] (true, []) (nil_error, ServeBlocks).

(** The port is taken. *)
Definition world_port_taken :=
  Scripted.world [] [] (false, [])
    (Some (ErrOther "listen tcp 127.0.0.1:50051: bind: address already in use"),
     ServeBlocks).

(** Listening works and Serve comes back with an error. *)
Definition world_serve_fails :=
  Scripted.world [] [] (false, [])
    (nil_error, ServeReturns (Some (ErrOther "accept tcp 127.0.0.1:50051: too many open files"))).

(** RunRPCHandler has started the goroutine, which has not run yet. *)
Definition world_started := run [EvRunRPCHandler] world_assigned.

(** The goroutine has registered for SIGINT and not yet for SIGTERM. *)
Definition world_registering :=
  run (EvRunRPCHandler :: replicate 3 (EvListener 0)) world_assigned.

(** ** Helper lemmas *)

Section Helpers.
Context {DS AWS NET OS : Type}.
Context `{!DataStoreAPI DS, !AWSAPIs AWS, !NetworkAPIs NET, !Runtime OS}.
Implicit Types (w : World DS AWS NET OS).

Lemma error_eqb_true (a b : error) : error_eqb a b = true ↔ a = b.
Proof. unfold error_eqb. apply bool_decide_eq_true. Qed.

Lemma retry_condition (err : error) :
  negb (error_eqb err nil_error) && error_eqb err datastore_ErrUnknownPod
  = bool_decide (err = datastore_ErrUnknownPod).
Proof.
  unfold error_eqb, nil_error, datastore_ErrUnknownPod.
  destruct err as [[]|]; reflexivity.
Qed.

Lemma failure_condition (err : error) :
  (if negb (error_eqb err nil_error) && negb (error_eqb err datastore_ErrUnknownPod)
   then false else true)
  = bool_decide (err = nil_error ∨ err = datastore_ErrUnknownPod).
Proof.
  unfold error_eqb, nil_error, datastore_ErrUnknownPod.
  destruct err as [e|].
  - destruct (decide (e = ErrUnknownPod)) as [->|Hne].
    + rewrite (bool_decide_eq_true_2 (_ ∨ _)) by auto. reflexivity.
    + rewrite (bool_decide_eq_false_2 (_ ∨ _)) by (intros [|]; congruence).
      rewrite (bool_decide_eq_false_2 (Some e = None)) by congruence.
      rewrite (bool_decide_eq_false_2 (Some e = Some ErrUnknownPod)) by congruence.
      reflexivity.
  - rewrite (bool_decide_eq_true_2 (_ ∨ _)) by auto. reflexivity.
Qed.

Lemma int32_in_range (x : Z) : (- 2 ^ 31 ≤ x < 2 ^ 31)%Z → int32 x = x.
Proof. intros Hx. unfold int32. rewrite Z.mod_small; lia. Qed.

Lemma set_logs_same w : set_logs (logs w) w = w.
Proof. destruct w; reflexivity. Qed.

(** The first loop of AddNetwork over non-nil pointers: every range is
    appended, in order, and logged. *)
Lemma vpc_loop (base : list string) : ∀ (acc : list string) w,
  for_range (Some <$> base) (fun pbVPCcidrs cidr =>
    let* s := deref cidr in
    let* _ := log_Debugf "VPC CIDR %s" [AStr s] in
    let* s' := deref cidr in
    ret (pbVPCcidrs ++ [s'])) acc w
  = Returned (acc ++ base) (set_logs (logs w ++ (vpc_entry <$> base)) w).
Proof.
  induction base as [|b base IH]; intros acc w; simpl.
  - unfold ret. rewrite !app_nil_r, set_logs_same. reflexivity.
  - unfold bind at 1. simpl. unfold bind at 1. simpl.
    rewrite IH. simpl. rewrite <- !app_assoc. reflexivity.
Qed.

(** The first loop panics at the first nil pointer, the counters
    untouched. *)
Lemma vpc_loop_nil (vpc : list (option string)) : ∀ (acc : list string) w,
  None ∈ vpc →
  ∃ w', for_range vpc (fun pbVPCcidrs cidr =>
    let* s := deref cidr in
    let* _ := log_Debugf "VPC CIDR %s" [AStr s] in
    let* s' := deref cidr in
    ret (pbVPCcidrs ++ [s'])) acc w = Panicked w'
    ∧ addIPCnt w' = addIPCnt w
    ∧ ipamContext w' = ipamContext w
    ∧ grpcServer w' = grpcServer w
    ∧ listeners w' = listeners w.
Proof.
  induction vpc as [|p vpc IH]; intros acc w Hin.
  - inversion Hin.
  - destruct p as [s|].
    + simpl. unfold bind at 1. simpl. unfold bind at 1. simpl.
      apply elem_of_cons in Hin as [Heq|Hin]; [discriminate|].
      destruct (IH (acc ++ [s])
                  (set_logs (logs w ++ [mkLog LvlDebug "VPC CIDR %s" [AStr s]]) w) Hin)
        as (w' & Hrun & Hcnt).
      exists w'. split; [exact Hrun|exact Hcnt].
    + exists w. repeat split; reflexivity.
Qed.

(** A slice of pointers holds a nil or it does not. *)
Lemma nil_or_all_valid {A} (l : list (option A)) :
  (∃ base, l = Some <$> base) ∨ None ∈ l.
Proof.
  induction l as [|[a|] l IH].
  - left. exists []. reflexivity.
  - destruct IH as [[base ->]|Hin].
    + left. exists (a :: base). reflexivity.
    + right. apply elem_of_cons. right. exact Hin.
  - right. apply elem_of_cons. left. reflexivity.
Qed.

(** The second loop of AddNetwork. *)
Lemma exclusion_loop (excl : list string) : ∀ (acc : list string) w,
  for_range excl (fun pbVPCcidrs cidr =>
    let* _ := log_Debugf "CIDR SNAT Exclusion %s" [AStr cidr] in
    ret (pbVPCcidrs ++ [cidr])) acc w
  = Returned (acc ++ excl) (set_logs (logs w ++ (exclusion_entry <$> excl)) w).
Proof.
  induction excl as [|c excl IH]; intros acc w; simpl.
  - unfold ret. rewrite !app_nil_r, set_logs_same. reflexivity.
  - unfold bind at 1. simpl.
    rewrite IH. simpl. rewrite <- !app_assoc. reflexivity.
Qed.

End Helpers.

(** ** What one run of each handler does *)

Section Runs.
Context {DS AWS NET OS : Type}.
Context `{!DataStoreAPI DS, !AWSAPIs AWS, !NetworkAPIs NET, !Runtime OS}.
Implicit Types (w : World DS AWS NET OS).

Lemma AddNetwork_run (in_ : AddNetworkRequest.t) w (base : list string) :
  vpc_answer w = Some <$> base →
  ∃ w', AddNetwork in_ w = Returned (add_reply in_ w base, nil_error) w'
    ∧ addIPCnt w' = (addIPCnt w + 1)%N
    ∧ delIPCnt w' = delIPCnt w
    ∧ calls w' = calls w ++
        [CallAssign (add_identity in_); CallGetVPCIPv4CIDRs; CallUseExternalSNAT]
        ++ (if snat_answer w then [] else [CallGetExcludeSNATCIDRs])
    ∧ terminating (ipamContext w') = terminating (ipamContext w)
    ∧ grpcServer w' = grpcServer w
    ∧ listeners w' = listeners w
    ∧ alive w' = alive w.
Proof.
  unfold add_reply, assign_answer, vpc_answer, snat_answer, exclusion_answer, add_identity.
  intros Hvpc. unfold AddNetwork.
  unfold bind at 1. simpl.
  unfold bind at 1. unfold dataStore_Assign at 1. simpl.
  destruct (AssignPodIPv4Address _ _) as [[[addr dev] err] ds] eqn:HA. simpl.
  unfold bind at 1. unfold awsClient_GetVPCIPv4CIDRs at 1. simpl.
  destruct (GetVPCIPv4CIDRs _) as [vpc a] eqn:HV. simpl in Hvpc. subst vpc. simpl.
  unfold bind at 1. rewrite vpc_loop. simpl.
  unfold bind at 1. unfold networkClient_UseExternalSNAT at 1. simpl.
  destruct (UseExternalSNAT _) as [snat n] eqn:HS. simpl.
  destruct snat; simpl.
  - rewrite app_nil_r.
    eexists. split; [reflexivity|]. simpl.
    rewrite <- !app_assoc. repeat split; reflexivity.
  - unfold bind at 1. unfold bind at 1.
    unfold networkClient_GetExcludeSNATCIDRs at 1. simpl.
    destruct (GetExcludeSNATCIDRs n) as [excl n'] eqn:HE. simpl.
    rewrite exclusion_loop. simpl.
    eexists. split; [reflexivity|]. simpl.
    rewrite <- !app_assoc. repeat split; reflexivity.
Qed.

(** With a nil pointer among the VPC ranges AddNetwork panics, before it
    reaches the counter. *)
Lemma AddNetwork_nil_pointer (in_ : AddNetworkRequest.t) w :
  None ∈ vpc_answer w →
  ∃ w', AddNetwork in_ w = Panicked w'
    ∧ addIPCnt w' = addIPCnt w
    ∧ terminating (ipamContext w') = terminating (ipamContext w)
    ∧ grpcServer w' = grpcServer w
    ∧ listeners w' = listeners w.
Proof.
  unfold vpc_answer. intros Hnil. unfold AddNetwork.
  unfold bind at 1. simpl.
  unfold bind at 1. unfold dataStore_Assign at 1. simpl.
  destruct (AssignPodIPv4Address _ _) as [[[addr dev] err] ds] eqn:HA. simpl.
  unfold bind at 1. unfold awsClient_GetVPCIPv4CIDRs at 1. simpl.
  destruct (GetVPCIPv4CIDRs _) as [vpc a] eqn:HV. simpl in Hnil. simpl.
  unfold bind at 1.
  match goal with |- context [for_range vpc ?b ?acc ?w0] =>
    destruct (vpc_loop_nil vpc acc w0 Hnil) as (w' & Hp & Hcnt & Hctx & Hsrv & Hls);
    rewrite Hp
  end.
  exists w'. split; [reflexivity|]. split; [exact Hcnt|].
  rewrite Hctx, Hsrv, Hls. repeat split; reflexivity.
Qed.

Lemma DelNetwork_run (in_ : DelNetworkRequest.t) w :
  ∃ w', DelNetwork in_ w = Returned (del_reply in_ w, nil_error) w'
    ∧ calls w' = calls w ++
        CallUnassign (full_identity in_)
        :: (if retries in_ w then [CallUnassign (fallback_identity in_)] else [])
    ∧ delIPCnt w' =
        <[DelNetworkRequest.Reason in_ :=
            (default 0%N (delIPCnt w !! DelNetworkRequest.Reason in_) + 1)%N]> (delIPCnt w)
    ∧ addIPCnt w' = addIPCnt w
    ∧ terminating (ipamContext w') = terminating (ipamContext w)
    ∧ grpcServer w' = grpcServer w
    ∧ listeners w' = listeners w
    ∧ alive w' = alive w.
Proof.
  unfold del_reply, final_unassign, retries, second_unassign, first_unassign,
    full_identity, fallback_identity.
  unfold DelNetwork.
  unfold bind at 1. simpl.
  unfold bind at 1. simpl.
  unfold bind at 1. unfold dataStore_Unassign at 1. simpl.
  destruct (UnassignPodIPv4Address _ (dataStore (ipamContext w)))
    as [[[ip dev] err] ds] eqn:HU. simpl.
  rewrite retry_condition.
  destruct (bool_decide (err = datastore_ErrUnknownPod)) eqn:Hretry.
  - unfold bind at 1. unfold dataStore_Unassign at 1. simpl.
    destruct (UnassignPodIPv4Address _ ds) as [[[ip2 dev2] err2] ds2] eqn:HU2. simpl.
    unfold bind at 1. simpl. rewrite failure_condition.
    eexists. split; [reflexivity|]. simpl.
    rewrite <- !app_assoc. repeat split; reflexivity.
  - unfold bind at 1. simpl.
    unfold bind at 1. simpl. rewrite failure_condition.
    eexists. split; [reflexivity|]. simpl.
    repeat split; reflexivity.
Qed.

End Runs.

(** ** The address-lifecycle protocol *)

Section Protocol.
Context {DS AWS NET OS : Type}.
Context `{!DataStoreAPI DS, !AWSAPIs AWS, !NetworkAPIs NET, !Runtime OS}.
Implicit Types (w : World DS AWS NET OS).

(** C1.  DelNetwork always comes back with a reply.  On the way it calls
    the store's unassign first with the identity of all three fields; it
    calls unassign once more, with name and namespace alone, exactly when
    the first call answered [datastore.ErrUnknownPod]; after any other
    error, and after success, there is no second call.  So the calls a
    DelNetwork adds to the trace are one or two unassign calls, never
    more. *)
Theorem DelNetwork_unassign_calls (in_ : DelNetworkRequest.t) w :
  ∃ reply w',
    DelNetwork in_ w = Returned (reply, nil_error) w'
    ∧ ((first_unassign in_ w).2 = datastore_ErrUnknownPod
       ∧ calls w' = calls w ++ [CallUnassign (full_identity in_);
                                CallUnassign (fallback_identity in_)]
       ∨ (first_unassign in_ w).2 ≠ datastore_ErrUnknownPod
         ∧ calls w' = calls w ++ [CallUnassign (full_identity in_)])
    ∧ full_identity in_
      = mkPodInfo (DelNetworkRequest.K8S_POD_NAME in_)
          (DelNetworkRequest.K8S_POD_NAMESPACE in_)
          (DelNetworkRequest.K8S_POD_INFRA_CONTAINER_ID in_)
    ∧ fallback_identity in_
      = mkPodInfo (DelNetworkRequest.K8S_POD_NAME in_)
          (DelNetworkRequest.K8S_POD_NAMESPACE in_) ""
    ∧ (1 ≤ length (filter (fun c => is_unassign c = true)
                     (drop (length (calls w)) (calls w'))) ≤ 2)%nat.
Proof.
  destruct (DelNetwork_run in_ w) as (w' & Hrun & Hcalls & _).
  exists (del_reply in_ w), w'.
  split; [exact Hrun|].
  rewrite Hcalls, drop_app_length. unfold retries.
  destruct (decide ((first_unassign in_ w).2 = datastore_ErrUnknownPod)) as [Hunk|Hother].
  - rewrite bool_decide_eq_true_2 by exact Hunk.
    split; [left; split; [exact Hunk|reflexivity]|].
    split; [reflexivity|]. split; [reflexivity|]. simpl. lia.
  - rewrite bool_decide_eq_false_2 by exact Hother.
    split; [right; split; [exact Hother|reflexivity]|].
    split; [reflexivity|]. split; [reflexivity|]. simpl. lia.
Qed.

(** C2.  The reply of DelNetwork has Success false exactly when the last
    unassign attempt (the second one when it was made, the first one
    otherwise) answered an error other than [datastore.ErrUnknownPod]; in
    every other case Success is true.  In particular, when both attempts
    answer [datastore.ErrUnknownPod], as for an identity that was never
    attached, Success is true. *)
Theorem DelNetwork_success (in_ : DelNetworkRequest.t) w :
  ∃ reply w',
    DelNetwork in_ w = Returned (reply, nil_error) w'
    ∧ (DelNetworkReply.Success reply = false ↔
         ∃ e, (final_unassign in_ w).2 = Some e ∧ e ≠ ErrUnknownPod)
    ∧ (DelNetworkReply.Success reply = true ↔
         (final_unassign in_ w).2 = nil_error
         ∨ (final_unassign in_ w).2 = datastore_ErrUnknownPod)
    ∧ ((first_unassign in_ w).2 = datastore_ErrUnknownPod →
       (second_unassign in_ w).2 = datastore_ErrUnknownPod →
       DelNetworkReply.Success reply = true).
Proof.
  destruct (DelNetwork_run in_ w) as (w' & Hrun & _).
  exists (del_reply in_ w), w'. split; [exact Hrun|].
  assert (Htrue : DelNetworkReply.Success (del_reply in_ w) = true ↔
    (final_unassign in_ w).2 = nil_error
    ∨ (final_unassign in_ w).2 = datastore_ErrUnknownPod)
    by (unfold del_reply; simpl; apply bool_decide_eq_true).
  split; [|split; [exact Htrue|]].
  - rewrite <- not_true_iff_false, Htrue.
    unfold nil_error, datastore_ErrUnknownPod.
    destruct ((final_unassign in_ w).2) as [e|]; split.
    + intros Hn. exists e. split; [reflexivity|]. intros ->. apply Hn. right. reflexivity.
    + intros (e' & [= <-] & Hne) [Hnil|[= Hunk]]; [discriminate|contradiction].
    + intros Hn. exfalso. apply Hn. left. reflexivity.
    + intros (e' & Hsome & _). discriminate.
  - intros H1 H2. apply Htrue. right.
    unfold final_unassign, retries. rewrite bool_decide_eq_true_2 by exact H1. exact H2.
Qed.

(** C3.  When the VPC ranges the provider hands out are valid pointers,
    the VPCcidrs of AddNetwork's reply are the VPC ranges, in the
    provider's order, followed, when UseExternalSNAT answers false, by
    the exclusion ranges in the provider's order; when UseExternalSNAT
    answers true, the VPCcidrs are the VPC ranges and nothing else, and
    the exclusion ranges are not even asked for. *)
Theorem AddNetwork_ranges_order (in_ : AddNetworkRequest.t) w (base : list string) :
  vpc_answer w = Some <$> base →
  ∃ reply w',
    AddNetwork in_ w = Returned (reply, nil_error) w'
    ∧ AddNetworkReply.VPCcidrs reply
      = base ++ (if snat_answer w then [] else exclusion_answer w)
    ∧ take (length base) (AddNetworkReply.VPCcidrs reply) = base
    ∧ drop (length base) (AddNetworkReply.VPCcidrs reply)
      = (if snat_answer w then [] else exclusion_answer w)
    ∧ (if snat_answer w
       then CallGetExcludeSNATCIDRs ∉ drop (length (calls w)) (calls w')
       else CallGetExcludeSNATCIDRs ∈ drop (length (calls w)) (calls w')).
Proof.
  intros Hvpc.
  destruct (AddNetwork_run in_ w base Hvpc) as (w' & Hrun & _ & _ & Hcalls & _).
  exists (add_reply in_ w base), w'. split; [exact Hrun|].
  unfold add_reply; simpl.
  split; [reflexivity|].
  split; [apply take_app_length|]. split; [apply drop_app_length|].
  rewrite Hcalls, drop_app_length.
  destruct (snat_answer w); simpl.
  - intros Hin. repeat (apply elem_of_cons in Hin as [Heq|Hin]; [discriminate|]).
    inversion Hin.
  - do 3 (apply elem_of_cons; right). apply elem_of_cons. left. reflexivity.
Qed.

(** C4.  When the VPC ranges the provider hands out are valid pointers,
    AddNetwork returns a reply and a nil error whatever the store's
    assign call answered.  Success of the reply is true exactly when the
    assign call answered no error; the reply carries the address and the
    device number (converted to int32) of that answer, the answer of
    UseExternalSNAT and the range sequence. *)
Theorem AddNetwork_reply (in_ : AddNetworkRequest.t) w (base : list string) :
  vpc_answer w = Some <$> base →
  ∃ reply w',
    AddNetwork in_ w = Returned (reply, nil_error) w'
    ∧ (AddNetworkReply.Success reply = true ↔ (assign_answer in_ w).2 = nil_error)
    ∧ AddNetworkReply.IPv4Addr reply = (assign_answer in_ w).1.1
    ∧ AddNetworkReply.DeviceNumber reply = int32 (assign_answer in_ w).1.2
    ∧ AddNetworkReply.UseExternalSNAT reply = snat_answer w
    ∧ AddNetworkReply.VPCcidrs reply
      = base ++ (if snat_answer w then [] else exclusion_answer w).
Proof.
  intros Hvpc.
  destruct (AddNetwork_run in_ w base Hvpc) as (w' & Hrun & _).
  exists (add_reply in_ w base), w'. split; [exact Hrun|].
  unfold add_reply; simpl.
  split; [apply error_eqb_true|]. repeat split; reflexivity.
Qed.

(** C5.  A call of AddNetwork (the VPC ranges being valid pointers) adds
    exactly one to the address-assigned counter and leaves the release
    counters alone, whatever Success it replies.  A call of DelNetwork
    adds exactly one to the release counter labelled with the request's
    reason and leaves every other label, and the address-assigned
    counter, alone, whatever Success it replies. *)
Theorem counters_incremented_once
    (a : AddNetworkRequest.t) (d : DelNetworkRequest.t) w :
  (∀ base : list string, vpc_answer w = Some <$> base →
   ∃ reply w',
     AddNetwork a w = Returned (reply, nil_error) w'
     ∧ AddNetworkReply.Success reply = error_eqb (assign_answer a w).2 nil_error
     ∧ addIPCnt w' = (addIPCnt w + 1)%N
     ∧ delIPCnt w' = delIPCnt w)
  ∧ (∃ reply w',
     DelNetwork d w = Returned (reply, nil_error) w'
     ∧ DelNetworkReply.Success reply
       = bool_decide ((final_unassign d w).2 = nil_error
                      ∨ (final_unassign d w).2 = datastore_ErrUnknownPod)
     ∧ delIPCnt w' !! DelNetworkRequest.Reason d
       = Some (default 0%N (delIPCnt w !! DelNetworkRequest.Reason d) + 1)%N
     ∧ (∀ label, label ≠ DelNetworkRequest.Reason d →
          delIPCnt w' !! label = delIPCnt w !! label)
     ∧ addIPCnt w' = addIPCnt w).
Proof.
  split.
  - intros base Hvpc.
    destruct (AddNetwork_run a w base Hvpc) as (w' & Hrun & Hadd & Hdel & _).
    exists (add_reply a w base), w'. split; [exact Hrun|].
    split; [reflexivity|]. split; [exact Hadd|exact Hdel].
  - destruct (DelNetwork_run d w) as (w' & Hrun & _ & Hdel & Hadd & _).
    exists (del_reply d w), w'. split; [exact Hrun|].
    split; [reflexivity|].
    rewrite Hdel. split; [apply lookup_insert_eq|].
    split; [|exact Hadd].
    intros label Hne. apply lookup_insert_ne. congruence.
Qed.

(** C10.  In the reply of AddNetwork (the VPC ranges being valid
    pointers) IPv4Subnet is the empty string.  The range provider and
    the SNAT policy are asked on every call, after the assign call and
    whatever it answered, and their answers are in the reply also when
    Success is false. *)
Theorem AddNetwork_unconditional (in_ : AddNetworkRequest.t) w (base : list string) :
  vpc_answer w = Some <$> base →
  ∃ reply w',
    AddNetwork in_ w = Returned (reply, nil_error) w'
    ∧ AddNetworkReply.Success reply = error_eqb (assign_answer in_ w).2 nil_error
    ∧ AddNetworkReply.IPv4Subnet reply = ""
    ∧ AddNetworkReply.UseExternalSNAT reply = snat_answer w
    ∧ AddNetworkReply.VPCcidrs reply
      = base ++ (if snat_answer w then [] else exclusion_answer w)
    ∧ take 3 (drop (length (calls w)) (calls w'))
      = [CallAssign (add_identity in_); CallGetVPCIPv4CIDRs; CallUseExternalSNAT].
Proof.
  intros Hvpc.
  destruct (AddNetwork_run in_ w base Hvpc) as (w' & Hrun & _ & _ & Hcalls & _).
  exists (add_reply in_ w base), w'. split; [exact Hrun|].
  rewrite Hcalls, drop_app_length.
  repeat split; reflexivity.
Qed.

End Protocol.

(** ** Bringing the service up *)

Section BringUp.
Context {DS AWS NET OS : Type}.
Context `{!DataStoreAPI DS, !AWSAPIs AWS, !NetworkAPIs NET, !Runtime OS}.
Implicit Types (w : World DS AWS NET OS).

Lemma RunRPCHandler_run w :
  ∃ w', RunRPCHandler w = Returned (run_result w) w'
    ∧ (if bool_decide (listen_answer w = None)
       then calls w' = calls w ++ [CallListen "tcp" ipamdgRPCaddress; CallServe]
            ∧ listeners w' = listeners w ++ [new_listener]
       else calls w' = calls w ++ [CallListen "tcp" ipamdgRPCaddress]
            ∧ listeners w' = listeners w)
    ∧ ipamContext w' = ipamContext w
    ∧ alive w' = alive w.
Proof.
  unfold run_result, listen_answer, serve_answer, RunRPCHandler.
  unfold bind at 1. simpl.
  unfold bind at 1. unfold os_net_Listen at 1. simpl.
  destruct (net_Listen _ _ _) as [lerr o] eqn:HL. simpl.
  destruct lerr as [e|]; simpl.
  - unfold bind at 1. simpl. eexists. split; [reflexivity|].
    simpl. rewrite <- ?app_assoc. repeat split; reflexivity.
  - do 7 (unfold bind at 1; simpl). unfold server_Serve at 1. simpl.
    destruct (grpc_Serve o) as [sr o'] eqn:HS. simpl.
    destruct sr as [|[e|]]; simpl.
    + eexists. split; [reflexivity|]. simpl. rewrite <- ?app_assoc.
      repeat split; reflexivity.
    + unfold bind at 1. simpl. eexists. split; [reflexivity|]. simpl.
      rewrite <- ?app_assoc. repeat split; reflexivity.
    + eexists. split; [reflexivity|]. simpl. rewrite <- ?app_assoc.
      repeat split; reflexivity.
Qed.

(** C9.  RunRPCHandler returns a non-nil error exactly when [net.Listen]
    answers an error, or [net.Listen] succeeds and [Serve] comes back
    with an error; otherwise it returns nil or, while [Serve] blocks,
    does not return.  The handlers never return a non-nil error:
    DelNetwork always returns a reply with a nil error, and AddNetwork
    returns a reply with a nil error unless it panics on a nil pointer
    among the VPC ranges. *)
Theorem RunRPCHandler_errors w :
  (∃ w', RunRPCHandler w = Returned (run_result w) w'
     ∧ ((∃ e, run_result w = Finished (Some e)) ↔
          listen_answer w ≠ nil_error
          ∨ (listen_answer w = nil_error
             ∧ ∃ e, serve_answer w = ServeReturns (Some e))))
  ∧ (∀ in_ : AddNetworkRequest.t,
       match AddNetwork in_ w with
       | Returned (_, err) _ => err = nil_error
       | Panicked _ => None ∈ vpc_answer w
       end)
  ∧ (∀ in_ : DelNetworkRequest.t,
       ∃ reply w', DelNetwork in_ w = Returned (reply, nil_error) w').
Proof.
  split; [|split].
  - destruct (RunRPCHandler_run w) as (w' & Hrun & _).
    exists w'. split; [exact Hrun|].
    unfold run_result, nil_error.
    destruct (listen_answer w) as [le|].
    + split; [intros _; left; discriminate|intros _; eexists; reflexivity].
    + destruct (serve_answer w) as [|[se|]].
      * split; [intros [e He]; discriminate|].
        intros [Hl|[_ [e He]]]; [contradiction|discriminate].
      * split; [|intros _; eexists; reflexivity].
        intros _. right. split; [reflexivity|]. eexists; reflexivity.
      * split; [intros [e He]; discriminate|].
        intros [Hl|[_ [e He]]]; [contradiction|discriminate].
  - intros in_. destruct (nil_or_all_valid (vpc_answer w)) as [[base Hvpc]|Hnil].
    + destruct (AddNetwork_run in_ w base Hvpc) as (w' & -> & _). reflexivity.
    + destruct (AddNetwork_nil_pointer in_ w Hnil) as (w' & -> & _). exact Hnil.
  - intros in_. destruct (DelNetwork_run in_ w) as (w' & Hrun & _).
    exists (del_reply in_ w), w'. exact Hrun.
Qed.

End BringUp.

(** ** The shutdown hand-shake *)

Section Shutdown.
Context {DS AWS NET OS : Type}.
Context `{!DataStoreAPI DS, !AWSAPIs AWS, !NetworkAPIs NET, !Runtime OS}.
Implicit Types (w : World DS AWS NET OS) (l : Listener).

(** *** What each event leaves alone *)

Lemma after_AddNetwork (in_ : AddNetworkRequest.t) w :
  flag (after (AddNetwork in_ w)) = flag w
  ∧ listeners (after (AddNetwork in_ w)) = listeners w
  ∧ grpcServer (after (AddNetwork in_ w)) = grpcServer w.
Proof.
  unfold flag.
  destruct (nil_or_all_valid (vpc_answer w)) as [[base Hvpc]|Hnil].
  - destruct (AddNetwork_run in_ w base Hvpc)
      as (w' & -> & _ & _ & _ & Hflag & Hsrv & Hls & _).
    simpl. auto.
  - destruct (AddNetwork_nil_pointer in_ w Hnil) as (w' & -> & _ & Hflag & Hsrv & Hls).
    simpl. auto.
Qed.

Lemma after_DelNetwork (in_ : DelNetworkRequest.t) w :
  flag (after (DelNetwork in_ w)) = flag w
  ∧ listeners (after (DelNetwork in_ w)) = listeners w
  ∧ grpcServer (after (DelNetwork in_ w)) = grpcServer w.
Proof.
  unfold flag.
  destruct (DelNetwork_run in_ w) as (w' & -> & _ & _ & _ & Hflag & Hsrv & Hls & _).
  simpl. auto.
Qed.

Lemma after_RunRPCHandler w :
  flag (after (RunRPCHandler w)) = flag w
  ∧ (listeners (after (RunRPCHandler w)) = listeners w
     ∨ listeners (after (RunRPCHandler w)) = listeners w ++ [new_listener]).
Proof.
  unfold flag.
  destruct (RunRPCHandler_run w) as (w' & -> & Hcase & Hctx & _).
  simpl. rewrite Hctx. split; [reflexivity|].
  destruct (bool_decide (listen_answer w = None)); destruct Hcase as [_ Hls]; auto.
Qed.

Lemma next_listeners l w : listeners (shutdownListener_next l w).2 = listeners w.
Proof. unfold shutdownListener_next. destruct (pc l); try reflexivity.
  destruct (sig_buf l); reflexivity. Qed.

Lemma next_alive l w : alive (shutdownListener_next l w).2 = alive w.
Proof. unfold shutdownListener_next. destruct (pc l); try reflexivity.
  destruct (sig_buf l); reflexivity. Qed.

Lemma next_flag l w :
  flag (shutdownListener_next l w).2
  = if bool_decide (pc l = AtSetTerminating) then true else flag w.
Proof. unfold shutdownListener_next, flag. destruct (pc l); try reflexivity.
  destruct (sig_buf l); reflexivity. Qed.

Lemma step_unfold (i : nat) w l :
  listeners w !! i = Some l →
  shutdownListener_step i w
  = set_listeners (<[i := (shutdownListener_next l w).1]> (listeners w))
      (shutdownListener_next l w).2.
Proof.
  intros Hl. unfold shutdownListener_step. rewrite Hl.
  pose proof (next_listeners l w) as Hls.
  destruct (shutdownListener_next l w) as [l' w']. simpl in *. rewrite Hls. reflexivity.
Qed.

Lemma step_missing (i : nat) w : listeners w !! i = None → shutdownListener_step i w = w.
Proof. intros Hl. unfold shutdownListener_step. rewrite Hl. reflexivity. Qed.

Lemma deliver_flag (s : Signal) w : flag (deliver s w) = flag w.
Proof. unfold deliver. destruct (bool_decide _); reflexivity. Qed.

(** The Termination State changes at one place only: where a goroutine
    runs [c.setTerminating()]. *)
Lemma exec_flag (e : Event) w :
  flag (exec e w) = flag w
  ∨ (∃ i l, e = EvListener i ∧ alive w = true ∧ listeners w !! i = Some l
       ∧ pc l = AtSetTerminating ∧ flag (exec e w) = true).
Proof.
  unfold exec. destruct (alive w) eqn:Halive; [|left; reflexivity].
  destruct e as [s|i|in_|in_|].
  - left. apply deliver_flag.
  - destruct (listeners w !! i) as [l|] eqn:Hl.
    + rewrite (step_unfold i w l Hl).
      assert (Hf : ∀ ls w0, flag (set_listeners ls w0) = flag w0) by reflexivity.
      rewrite Hf, next_flag.
      destruct (decide (pc l = AtSetTerminating)) as [Hpc|Hpc].
      * right. exists i, l. rewrite bool_decide_eq_true_2 by exact Hpc. auto.
      * left. rewrite bool_decide_eq_false_2 by exact Hpc. reflexivity.
    + left. rewrite step_missing by exact Hl. reflexivity.
  - left. apply after_AddNetwork.
  - left. apply after_DelNetwork.
  - left. apply after_RunRPCHandler.
Qed.

Lemma exec_flag_stays (e : Event) w : flag w = true → flag (exec e w) = true.
Proof.
  intros Hw. destruct (exec_flag e w) as [Heq|(i & l & _ & _ & _ & _ & Ht)].
  - rewrite Heq. exact Hw.
  - exact Ht.
Qed.

Lemma run_flag_stays (sched : list Event) : ∀ w, flag w = true → flag (run sched w) = true.
Proof.
  induction sched as [|e sched IH]; intros w Hw; [exact Hw|].
  apply IH, exec_flag_stays, Hw.
Qed.

Lemma flags_cons (e : Event) (sched : list Event) w :
  flags (e :: sched) w = flag w :: flags sched (exec e w).
Proof. reflexivity. Qed.

Lemma flags_head (sched : list Event) w : ∃ rest, flags sched w = flag w :: rest.
Proof. destruct sched; eexists; reflexivity. Qed.

Lemma rising_edges_cons (b b' : bool) (rest : list bool) :
  rising_edges (b :: b' :: rest)
  = (if negb b && b' then 1 else 0) + rising_edges (b' :: rest).
Proof. reflexivity. Qed.

Lemma falling_edges_cons (b b' : bool) (rest : list bool) :
  falling_edges (b :: b' :: rest)
  = (if b && negb b' then 1 else 0) + falling_edges (b' :: rest).
Proof. reflexivity. Qed.

Lemma flags_all_true (sched : list Event) : ∀ w,
  flag w = true → rising_edges (flags sched w) = 0 ∧ falling_edges (flags sched w) = 0.
Proof.
  induction sched as [|e sched IH]; intros w Hw; [split; reflexivity|].
  pose proof (exec_flag_stays e w Hw) as Hnext.
  destruct (IH (exec e w) Hnext) as [Hr Hf]. rewrite flags_cons.
  destruct (flags_head sched (exec e w)) as [rest Hrest].
  rewrite Hrest in *. rewrite rising_edges_cons, falling_edges_cons, Hr, Hf.
  rewrite Hw, Hnext. split; reflexivity.
Qed.

Lemma flags_edges (sched : list Event) : ∀ w,
  rising_edges (flags sched w) ≤ 1 ∧ falling_edges (flags sched w) = 0.
Proof.
  induction sched as [|e sched IH]; intros w; [split; simpl; lia|].
  rewrite flags_cons.
  destruct (flags_head sched (exec e w)) as [rest Hrest].
  destruct (flag (exec e w)) eqn:Hnext.
  - destruct (flags_all_true sched (exec e w) Hnext) as [Hr Hf].
    rewrite Hrest in *. rewrite rising_edges_cons, falling_edges_cons, Hr, Hf.
    destruct (flag w) eqn:Hw; cbn [negb andb]; split; lia.
  - destruct (IH (exec e w)) as [Hr Hf].
    rewrite Hrest in *. rewrite rising_edges_cons, falling_edges_cons, Hf.
    destruct (flag w) eqn:Hw; cbn [negb andb].
    + pose proof (exec_flag_stays e w Hw). congruence.
    + split; lia.
Qed.

(** *** What each event does to one goroutine *)

Lemma relay_bystander (s : Signal) l : bystander (EvSignal s) l (relay s l).
Proof.
  unfold relay, bystander.
  destruct (bool_decide (s ∈ notified l)) eqn:Hin; simpl; [|auto].
  destruct (bool_decide (length (sig_buf l) < 1)) eqn:Hlen; simpl; [|auto].
  apply bool_decide_eq_true in Hin, Hlen.
  split; [reflexivity|]. split; [reflexivity|]. right.
  destruct (sig_buf l) as [|x b]; [|simpl in Hlen; lia].
  split; [reflexivity|]. exists s. auto.
Qed.

Lemma exec_dead (e : Event) w : alive w = false → exec e w = w.
Proof. intros Hd. unfold exec. rewrite Hd. reflexivity. Qed.

Lemma exec_own_step (i : nat) w l :
  alive w = true → listeners w !! i = Some l →
  listeners (exec (EvListener i) w) !! i = Some (shutdownListener_next l w).1.
Proof.
  intros Ha Hl. unfold exec. rewrite Ha, (step_unfold i w l Hl). simpl.
  apply list_lookup_insert_eq. eapply lookup_lt_Some, Hl.
Qed.

Lemma exec_bystander (e : Event) (i : nat) w l :
  listeners w !! i = Some l →
  is_step i e = false ∨ alive w = false →
  ∃ l', listeners (exec e w) !! i = Some l' ∧ bystander e l l'.
Proof.
  intros Hl Hother.
  assert (Hsame : bystander e l l) by (unfold bystander; auto).
  destruct (alive w) eqn:Ha; [|rewrite exec_dead by exact Ha; eauto].
  destruct Hother as [Hother|?]; [|discriminate].
  unfold exec. rewrite Ha.
  destruct e as [s|j|in_|in_|].
  - unfold deliver. destruct (bool_decide _); simpl; [|eauto].
    rewrite list_lookup_fmap, Hl. simpl. eexists. split; [reflexivity|].
    apply relay_bystander.
  - simpl in Hother. apply bool_decide_eq_false in Hother.
    destruct (listeners w !! j) as [lj|] eqn:Hj.
    + rewrite (step_unfold j w lj Hj). simpl.
      rewrite list_lookup_insert_ne by exact Hother. eauto.
    + rewrite step_missing by exact Hj. eauto.
  - destruct (after_AddNetwork in_ w) as (_ & -> & _). eauto.
  - destruct (after_DelNetwork in_ w) as (_ & -> & _). eauto.
  - destruct (after_RunRPCHandler w) as (_ & [-> | ->]); [eauto|].
    rewrite lookup_app_l by (eapply lookup_lt_Some, Hl). eauto.
Qed.

Lemma next_past_receive l w :
  past_receive l = true → past_receive (shutdownListener_next l w).1 = true.
Proof.
  unfold past_receive, shutdownListener_next. intros Hp.
  destruct (pc l) eqn:Hpc; try discriminate Hp; simpl; try reflexivity.
  rewrite Hpc. reflexivity.
Qed.

Lemma exec_past_receive (e : Event) (i : nat) w l :
  listeners w !! i = Some l → past_receive l = true →
  ∃ l', listeners (exec e w) !! i = Some l' ∧ past_receive l' = true.
Proof.
  intros Hl Hp.
  destruct (is_step i e) eqn:He; destruct (alive w) eqn:Ha.
  - destruct e as [|j| | |]; try discriminate. simpl in He.
    apply bool_decide_eq_true in He as ->.
    eexists. split; [apply exec_own_step; eassumption|].
    apply next_past_receive, Hp.
  - destruct (exec_bystander e i w l Hl) as (l' & Hl' & Hpc & _); [auto|].
    exists l'. split; [exact Hl'|]. unfold past_receive in *. rewrite Hpc. exact Hp.
  - destruct (exec_bystander e i w l Hl) as (l' & Hl' & Hpc & _); [auto|].
    exists l'. split; [exact Hl'|]. unfold past_receive in *. rewrite Hpc. exact Hp.
  - destruct (exec_bystander e i w l Hl) as (l' & Hl' & Hpc & _); [auto|].
    exists l'. split; [exact Hl'|]. unfold past_receive in *. rewrite Hpc. exact Hp.
Qed.

Lemma receiving_past (i : nat) w l :
  listeners w !! i = Some l → past_receive l = true → receiving i w = false.
Proof.
  intros Hl Hp. unfold receiving. rewrite Hl.
  unfold past_receive in Hp.
  destruct (pc l); try discriminate; simpl; apply andb_false_r.
Qed.

Lemma receives_past (i : nat) (sched : list Event) : ∀ w l,
  listeners w !! i = Some l → past_receive l = true → receives i sched w = 0.
Proof.
  induction sched as [|e sched IH]; intros w l Hl Hp; [reflexivity|].
  simpl. destruct (exec_past_receive e i w l Hl Hp) as (l' & Hl' & Hp').
  rewrite (IH _ l' Hl' Hp'), (receiving_past i w l Hl Hp).
  destruct e; try reflexivity. rewrite andb_false_r. reflexivity.
Qed.

(** A goroutine takes a signal out of its channel once at most. *)
Lemma receives_once (i : nat) (sched : list Event) : ∀ w, receives i sched w ≤ 1.
Proof.
  induction sched as [|e sched IH]; intros w; simpl; [lia|].
  specialize (IH (exec e w)).
  destruct e as [s|j|in_|in_|]; try (simpl; lia).
  destruct (bool_decide (j = i) && receiving i w) eqn:Hrecv; [|simpl; lia].
  apply andb_true_iff in Hrecv as [Hj Hrecv].
  apply bool_decide_eq_true in Hj as ->.
  unfold receiving in Hrecv. apply andb_true_iff in Hrecv as [Ha Hrecv].
  destruct (listeners w !! i) as [l|] eqn:Hl; [|discriminate].
  apply andb_true_iff in Hrecv as [Hpc Hbuf].
  apply bool_decide_eq_true in Hpc, Hbuf.
  pose proof (exec_own_step i w l Ha Hl) as Hnext.
  rewrite (receives_past i sched _ _ Hnext); [lia|].
  unfold past_receive, shutdownListener_next. rewrite Hpc.
  destruct (sig_buf l); [contradiction|reflexivity].
Qed.

(** *** No signal, no transition *)

Lemma next_waiting l w :
  waiting l →
  waiting (shutdownListener_next l w).1
  ∧ flag (shutdownListener_next l w).2 = flag w.
Proof.
  unfold waiting, past_receive. intros [Hp Hb].
  rewrite next_flag. unfold shutdownListener_next.
  destruct (pc l) eqn:Hpc; try discriminate Hp; simpl; auto.
  rewrite Hb. simpl. rewrite Hpc. auto.
Qed.

Lemma quiet_exec (e : Event) w : is_signal e = false → quiet w → quiet (exec e w).
Proof.
  intros He [Hflag Hls]. unfold exec.
  destruct (alive w); [|split; assumption].
  destruct e as [s|j|in_|in_|]; [discriminate| | | |].
  - destruct (listeners w !! j) as [l|] eqn:Hj.
    + rewrite (step_unfold j w l Hj).
      destruct (next_waiting l w) as [Hw Hf];
        [exact (Forall_lookup_1 _ _ _ _ Hls Hj)|].
      split.
      * unfold flag in *. simpl. rewrite Hf. exact Hflag.
      * simpl. apply Forall_insert; assumption.
    + rewrite step_missing by exact Hj. split; assumption.
  - destruct (after_AddNetwork in_ w) as (Hf & Hl & _).
    split; [rewrite Hf; exact Hflag|rewrite Hl; exact Hls].
  - destruct (after_DelNetwork in_ w) as (Hf & Hl & _).
    split; [rewrite Hf; exact Hflag|rewrite Hl; exact Hls].
  - destruct (after_RunRPCHandler w) as (Hf & [Hl|Hl]).
    + split; [rewrite Hf; exact Hflag|rewrite Hl; exact Hls].
    + split; [rewrite Hf; exact Hflag|]. rewrite Hl. apply Forall_app. split; [exact Hls|].
      apply Forall_singleton. split; reflexivity.
Qed.

Lemma quiet_run (sched : list Event) : ∀ w,
  forallb (fun e => negb (is_signal e)) sched = true → quiet w → flag (run sched w) = false.
Proof.
  induction sched as [|e sched IH]; intros w Hs Hq; [apply Hq|].
  simpl in Hs. apply andb_true_iff in Hs as [He Hs].
  apply IH; [exact Hs|]. apply quiet_exec; [|exact Hq].
  destruct (is_signal e); [discriminate|reflexivity].
Qed.

(** *** A signal, and the transition follows *)

Lemma bystander_steps_left (e : Event) l l' k :
  bystander e l l' → steps_left l = Some k → steps_left l' = Some k.
Proof.
  unfold bystander, steps_left. intros (Hpc & _ & Hbuf) Hk. rewrite Hpc.
  destruct (pc l); try discriminate Hk; try exact Hk.
  destruct Hbuf as [->|[Hnil _]]; [exact Hk|].
  rewrite Hnil in Hk. rewrite bool_decide_eq_false_2 in Hk by auto. discriminate.
Qed.

Lemma within_bystander (e : Event) (i n : nat) w :
  is_step i e = false ∨ alive w = false → within i n w → within i n (exec e w).
Proof.
  intros Hother [Hflag|(l & k & Hl & Hk & Hle)].
  - left. apply exec_flag_stays, Hflag.
  - right. destruct (exec_bystander e i w l Hl Hother) as (l' & Hl' & Hby).
    exists l', k. split; [exact Hl'|]. split; [|exact Hle].
    eapply bystander_steps_left; eassumption.
Qed.

Lemma within_own_step (i n : nat) w :
  alive w = true → within i (S n) w → within i n (exec (EvListener i) w).
Proof.
  intros Ha [Hflag|(l & k & Hl & Hk & Hle)].
  - left. apply exec_flag_stays, Hflag.
  - pose proof (exec_own_step i w l Ha Hl) as Hnext.
    unfold steps_left in Hk.
    destruct (pc l) eqn:Hpc; try discriminate Hk.
    + destruct (sig_buf l) as [|x rest] eqn:Hbuf.
      { rewrite bool_decide_eq_false_2 in Hk by auto. discriminate. }
      rewrite bool_decide_eq_true_2 in Hk by discriminate.
      injection Hk as <-. right. eexists. exists 2. split; [exact Hnext|].
      unfold shutdownListener_next. rewrite Hpc, Hbuf. simpl. split; [reflexivity|lia].
    + injection Hk as <-. right. eexists. exists 1. split; [exact Hnext|].
      unfold shutdownListener_next. rewrite Hpc. simpl. split; [reflexivity|lia].
    + left. unfold exec. rewrite Ha, (step_unfold i w l Hl).
      assert (Hf : ∀ ls w0, flag (set_listeners ls w0) = flag w0) by reflexivity.
      rewrite Hf, next_flag. rewrite bool_decide_eq_true_2 by exact Hpc. reflexivity.
Qed.

Lemma run_dead (sched : list Event) w : alive w = false → run sched w = w.
Proof.
  intros Hd. induction sched as [|e sched IH]; [reflexivity|].
  simpl. rewrite exec_dead by exact Hd. exact IH.
Qed.

Lemma run_cons (e : Event) (sched : list Event) w :
  run (e :: sched) w = run sched (exec e w).
Proof. reflexivity. Qed.

(** Scheduled often enough, and the process alive at the end, the
    goroutine has set the Termination State. *)
Lemma within_run (i : nat) (sched : list Event) : ∀ n w,
  within i n w → n ≤ scheduled i sched → alive (run sched w) = true →
  flag (run sched w) = true.
Proof.
  induction sched as [|e sched IH]; intros n w Hin Hn Hal.
  - simpl in *. destruct Hin as [Hflag|(l & k & Hl & Hk & Hle)]; [exact Hflag|].
    unfold steps_left in Hk.
    destruct (pc l); try discriminate Hk;
      try (injection Hk as <-; lia).
    destruct (bool_decide _); [injection Hk as <-; lia|discriminate].
  - rewrite run_cons in *.
    destruct (alive w) eqn:Ha.
    2:{ rewrite exec_dead in Hal by exact Ha. rewrite run_dead in Hal by exact Ha.
        congruence. }
    simpl in Hn. destruct (is_step i e) eqn:He.
    + destruct e as [|j| | |]; try discriminate He. simpl in He.
      apply bool_decide_eq_true in He as ->.
      destruct n as [|n].
      * apply (IH 0); [|lia|exact Hal].
        destruct Hin as [Hflag|(l & k & Hl & Hk & Hle)].
        -- left. apply exec_flag_stays, Hflag.
        -- exfalso. unfold steps_left in Hk.
           destruct (pc l); try discriminate Hk; try (injection Hk as <-; lia).
           destruct (bool_decide _); [injection Hk as <-; lia|discriminate].
      * apply (IH n); [|lia|exact Hal]. apply within_own_step; assumption.
    + apply (IH n); [|lia|exact Hal]. apply within_bystander; auto.
Qed.

(** A signal a goroutine at [<-sig] is registered for ends up in its
    channel, unless one is there already. *)
Lemma signal_arms (s : Signal) (i : nat) w l :
  alive w = true → listeners w !! i = Some l → pc l = AtReceive → s ∈ notified l →
  within i 3 (exec (EvSignal s) w).
Proof.
  intros Ha Hl Hpc Hin. right.
  unfold exec. rewrite Ha. unfold deliver.
  rewrite bool_decide_eq_true_2.
  2:{ apply Exists_exists. exists l. split; [|exact Hin].
      eapply list_elem_of_lookup_2, Hl. }
  simpl. rewrite list_lookup_fmap, Hl. simpl.
  exists (relay s l), 3. split; [reflexivity|]. split; [|lia].
  unfold relay, steps_left.
  rewrite (bool_decide_eq_true_2 (s ∈ notified l)) by exact Hin. simpl.
  destruct (sig_buf l) as [|x rest] eqn:Hbuf; simpl.
  - rewrite Hpc. reflexivity.
  - rewrite Hpc, Hbuf. reflexivity.
Qed.

(** *** After the goroutine has exited *)

Lemma set_listeners_same w : set_listeners (listeners w) w = w.
Proof. destruct w; reflexivity. Qed.

Lemma exited_step (i : nat) w l :
  listeners w !! i = Some l → pc l = Exited → exec (EvListener i) w = w.
Proof.
  intros Hl Hpc. unfold exec. destruct (alive w); [|reflexivity].
  rewrite (step_unfold i w l Hl). unfold shutdownListener_next. rewrite Hpc. simpl.
  rewrite list_insert_id by exact Hl. apply set_listeners_same.
Qed.

Lemma exited_signal (s : Signal) (i : nat) w l :
  listeners w !! i = Some l → pc l = Exited → s ∈ notified l →
  ipamContext (exec (EvSignal s) w) = ipamContext w
  ∧ logs (exec (EvSignal s) w) = logs w
  ∧ grpcServer (exec (EvSignal s) w) = grpcServer w
  ∧ alive (exec (EvSignal s) w) = alive w
  ∧ ∃ l', listeners (exec (EvSignal s) w) !! i = Some l' ∧ pc l' = Exited.
Proof.
  intros Hl Hpc Hin.
  assert (HE : Exists (fun l0 => s ∈ notified l0) (listeners w)).
  { apply Exists_exists. exists l. split; [|exact Hin]. eapply list_elem_of_lookup_2, Hl. }
  unfold exec. destruct (alive w) eqn:Ha.
  - unfold deliver. rewrite bool_decide_eq_true_2 by exact HE. simpl.
    repeat (split; [first [reflexivity|exact Ha]|]).
    rewrite list_lookup_fmap, Hl. simpl. eexists. split; [reflexivity|].
    rewrite <- Hpc. unfold relay. destruct (_ && _); reflexivity.
  - repeat (split; [first [reflexivity|exact Ha]|]). eauto.
Qed.

(** *** What the goroutine leaves alone *)

Lemma next_frame l w :
  dataStore (ipamContext (shutdownListener_next l w).2) = dataStore (ipamContext w)
  ∧ awsClient (ipamContext (shutdownListener_next l w).2) = awsClient (ipamContext w)
  ∧ networkClient (ipamContext (shutdownListener_next l w).2)
    = networkClient (ipamContext w)
  ∧ grpcServer (shutdownListener_next l w).2 = grpcServer w
  ∧ addIPCnt (shutdownListener_next l w).2 = addIPCnt w
  ∧ delIPCnt (shutdownListener_next l w).2 = delIPCnt w
  ∧ calls (shutdownListener_next l w).2 = calls w
  ∧ os (shutdownListener_next l w).2 = os w
  ∧ alive (shutdownListener_next l w).2 = alive w.
Proof.
  unfold shutdownListener_next.
  destruct (pc l); try (repeat split; reflexivity).
  destruct (sig_buf l); repeat split; reflexivity.
Qed.

Lemma step_frame (i : nat) w :
  dataStore (ipamContext (shutdownListener_step i w)) = dataStore (ipamContext w)
  ∧ awsClient (ipamContext (shutdownListener_step i w)) = awsClient (ipamContext w)
  ∧ networkClient (ipamContext (shutdownListener_step i w))
    = networkClient (ipamContext w)
  ∧ grpcServer (shutdownListener_step i w) = grpcServer w
  ∧ addIPCnt (shutdownListener_step i w) = addIPCnt w
  ∧ delIPCnt (shutdownListener_step i w) = delIPCnt w
  ∧ calls (shutdownListener_step i w) = calls w
  ∧ os (shutdownListener_step i w) = os w
  ∧ alive (shutdownListener_step i w) = alive w.
Proof.
  destruct (listeners w !! i) as [l|] eqn:Hl.
  - rewrite (step_unfold i w l Hl). apply (next_frame l w).
  - rewrite step_missing by exact Hl. repeat split; reflexivity.
Qed.

(** The replies of the handlers depend on the collaborators only. *)
Lemma AddNetwork_returned_ext (in_ : AddNetworkRequest.t) w1 w2 :
  dataStore (ipamContext w1) = dataStore (ipamContext w2) →
  awsClient (ipamContext w1) = awsClient (ipamContext w2) →
  networkClient (ipamContext w1) = networkClient (ipamContext w2) →
  returned (AddNetwork in_ w1) = returned (AddNetwork in_ w2).
Proof.
  intros Hds Haws Hnet.
  assert (Hvpc : vpc_answer w1 = vpc_answer w2) by (unfold vpc_answer; congruence).
  destruct (nil_or_all_valid (vpc_answer w1)) as [[base Hv]|Hnil].
  - destruct (AddNetwork_run in_ w1 base Hv) as (w1' & -> & _).
    rewrite Hvpc in Hv.
    destruct (AddNetwork_run in_ w2 base Hv) as (w2' & -> & _).
    simpl. unfold add_reply, assign_answer, snat_answer, exclusion_answer.
    rewrite Hds, Hnet. reflexivity.
  - destruct (AddNetwork_nil_pointer in_ w1 Hnil) as (w1' & -> & _).
    rewrite Hvpc in Hnil.
    destruct (AddNetwork_nil_pointer in_ w2 Hnil) as (w2' & -> & _).
    reflexivity.
Qed.

Lemma DelNetwork_returned_ext (in_ : DelNetworkRequest.t) w1 w2 :
  dataStore (ipamContext w1) = dataStore (ipamContext w2) →
  returned (DelNetwork in_ w1) = returned (DelNetwork in_ w2).
Proof.
  intros Hds.
  destruct (DelNetwork_run in_ w1) as (w1' & -> & _).
  destruct (DelNetwork_run in_ w2) as (w2' & -> & _).
  simpl. unfold del_reply, final_unassign, retries, second_unassign, first_unassign.
  rewrite Hds. reflexivity.
Qed.

(** *** The hand-shake as a whole *)

(** C6.  Along every schedule of signals, goroutine steps and RPCs the
    Termination State goes from false to true at most once and never
    back.  It changes nowhere but where a shutdownListener goroutine runs
    [c.setTerminating()], which comes after that goroutine's [<-sig]: as
    long as no signal arrives it stays false; once a goroutine waiting at
    [<-sig] is sent SIGINT or SIGTERM and is scheduled three more times,
    it is true (the process being alive).  The goroutine registers for
    SIGINT and SIGTERM and for nothing else, takes a signal out of its
    channel once at most, and after it has exited a further step of it
    changes nothing and a further signal changes neither the Termination
    State nor anything else of the context, the log or the server. *)
Theorem termination_state_once (i : nat) (sched : list Event) w :
  (rising_edges (flags sched w) ≤ 1 ∧ falling_edges (flags sched w) = 0)
  ∧ (∀ e w0, flag (exec e w0) = flag w0
       ∨ ∃ j l, e = EvListener j ∧ alive w0 = true ∧ listeners w0 !! j = Some l
           ∧ pc l = AtSetTerminating ∧ flag (exec e w0) = true)
  ∧ (quiet w → forallb (fun e => negb (is_signal e)) sched = true →
     flag (run sched w) = false)
  ∧ (pc (Nat.iter 4 (fun l => (shutdownListener_next l w).1) new_listener) = AtReceive
     ∧ notified (Nat.iter 4 (fun l => (shutdownListener_next l w).1) new_listener)
       = [SIGINT; SIGTERM])
  ∧ (∀ s l, alive w = true → listeners w !! i = Some l → pc l = AtReceive →
       s ∈ notified l → 3 ≤ scheduled i sched →
       alive (run (EvSignal s :: sched) w) = true →
       flag (run (EvSignal s :: sched) w) = true)
  ∧ receives i sched w ≤ 1
  ∧ (∀ l, listeners w !! i = Some l → pc l = Exited →
       exec (EvListener i) w = w
       ∧ ∀ s, s ∈ notified l →
           ipamContext (exec (EvSignal s) w) = ipamContext w
           ∧ logs (exec (EvSignal s) w) = logs w
           ∧ grpcServer (exec (EvSignal s) w) = grpcServer w
           ∧ alive (exec (EvSignal s) w) = alive w
           ∧ ∃ l', listeners (exec (EvSignal s) w) !! i = Some l' ∧ pc l' = Exited).
Proof.
  split; [apply flags_edges|].
  split; [intros e w0; apply exec_flag|].
  split; [intros Hq Hs; apply quiet_run; assumption|].
  split; [split; reflexivity|].
  split.
  { intros s l Ha Hl Hpc Hin Hn Hal. rewrite run_cons in *.
    apply (within_run i sched 3); [|exact Hn|exact Hal].
    eapply signal_arms; eassumption. }
  split; [apply receives_once|].
  intros l Hl Hpc. split; [eapply exited_step; eassumption|].
  intros s Hin. eapply exited_signal; eassumption.
Qed.

(** C7.  A step of a shutdownListener goroutine, whichever statement it
    runs, leaves the data store, the AWS client, the network client, the
    gRPC server (so it is neither stopped nor drained), the counters, the
    call trace, the runtime and the liveness of the process as they
    were, and a handler called after it replies what it would have
    replied before it.  The step that runs [c.setTerminating()] sets the
    Termination State to true, writes no log, and besides that only
    moves the goroutine itself to its end. *)
Theorem shutdown_transition_frame (i : nat) w :
  (∀ l, listeners w !! i = Some l → pc l = AtSetTerminating →
     flag (shutdownListener_step i w) = true
     ∧ logs (shutdownListener_step i w) = logs w
     ∧ listeners (shutdownListener_step i w)
       = <[i := mkListener Exited (sig_buf l) (notified l)]> (listeners w))
  ∧ (dataStore (ipamContext (shutdownListener_step i w)) = dataStore (ipamContext w)
     ∧ awsClient (ipamContext (shutdownListener_step i w)) = awsClient (ipamContext w)
     ∧ networkClient (ipamContext (shutdownListener_step i w))
       = networkClient (ipamContext w)
     ∧ grpcServer (shutdownListener_step i w) = grpcServer w
     ∧ addIPCnt (shutdownListener_step i w) = addIPCnt w
     ∧ delIPCnt (shutdownListener_step i w) = delIPCnt w
     ∧ calls (shutdownListener_step i w) = calls w
     ∧ os (shutdownListener_step i w) = os w
     ∧ alive (shutdownListener_step i w) = alive w)
  ∧ (∀ in_ : AddNetworkRequest.t,
       returned (AddNetwork in_ (shutdownListener_step i w))
       = returned (AddNetwork in_ w))
  ∧ (∀ in_ : DelNetworkRequest.t,
       returned (DelNetwork in_ (shutdownListener_step i w))
       = returned (DelNetwork in_ w)).
Proof.
  pose proof (step_frame i w) as Hframe.
  split; [|split; [exact Hframe|]].
  - intros l Hl Hpc. rewrite (step_unfold i w l Hl).
    unfold shutdownListener_next. rewrite Hpc. simpl. repeat split; reflexivity.
  - destruct Hframe as (Hds & Haws & Hnet & _). split.
    + intros in_. apply AddNetwork_returned_ext; assumption.
    + intros in_. apply DelNetwork_returned_ext; assumption.
Qed.

End Shutdown.

(** ** The scenario of the specification *)

Section Scenario.
Context {DS AWS NET OS : Type}.
Context `{!DataStoreAPI DS, !AWSAPIs AWS, !NetworkAPIs NET, !Runtime OS}.
Implicit Types (w : World DS AWS NET OS).

(** C8.  AddNetwork for pod-a in ns1 with container c1 and interface
    eth0, the store answering address 10.0.1.5 and device 1 with no
    error, the VPC ranges being 10.0.0.0/16, UseExternalSNAT answering
    false and the exclusion ranges being 192.168.0.0/16, replies Success
    true, IPv4Addr 10.0.1.5, DeviceNumber 1, UseExternalSNAT false and
    VPCcidrs 10.0.0.0/16, 192.168.0.0/16, with a nil error. *)
Theorem AddNetwork_scenario (netns : string) w :
  let in_ := AddNetworkRequest.mk "pod-a" "ns1" "c1" netns "eth0" in
  assign_answer in_ w = ("10.0.1.5", 1%Z, nil_error) →
  vpc_answer w = [Some "10.0.0.0/16"] →
  snat_answer w = false →
  exclusion_answer w = ["192.168.0.0/16"] →
  returned (AddNetwork in_ w)
  = Some ({| AddNetworkReply.Success := true;
             AddNetworkReply.IPv4Addr := "10.0.1.5";
             AddNetworkReply.IPv4Subnet := "";
             AddNetworkReply.DeviceNumber := 1;
             AddNetworkReply.UseExternalSNAT := false;
             AddNetworkReply.VPCcidrs := ["10.0.0.0/16"; "192.168.0.0/16"] |},
          nil_error).
Proof.
  intros in_ Hassign Hvpc Hsnat Hexcl.
  destruct (AddNetwork_run in_ w ["10.0.0.0/16"] Hvpc) as (w' & -> & _).
  simpl. unfold add_reply. rewrite Hassign, Hsnat, Hexcl. reflexivity.
Qed.

End Scenario.

(** ** The theorems at work on scripted collaborators *)

Lemma DelNetwork_success_never_attached :
  ∃ reply w',
    DelNetwork example_del world_never_attached = Returned (reply, nil_error) w'
    ∧ DelNetworkReply.Success reply = true.
Proof.
  destruct (DelNetwork_success example_del world_never_attached)
    as (reply & w' & Hrun & _ & _ & Hboth).
  exists reply, w'. split; [exact Hrun|].
  apply Hboth; reflexivity.
Defined.

Lemma AddNetwork_ranges_order_local_snat :
  ∃ reply w',
    AddNetwork example_add world_assigned = Returned (reply, nil_error) w'
    ∧ AddNetworkReply.VPCcidrs reply = ["10.0.0.0/16"; "192.168.0.0/16"].
Proof.
  assert (Hvpc : vpc_answer world_assigned = Some <$> ["10.0.0.0/16"]) by reflexivity.
  destruct (AddNetwork_ranges_order example_add world_assigned ["10.0.0.0/16"] Hvpc)
    as (reply & w' & Hrun & Hcidrs & _).
  exists reply, w'. split; [exact Hrun|exact Hcidrs].
Defined.

Lemma AddNetwork_reply_exhausted :
  ∃ reply w',
    AddNetwork example_add world_exhausted = Returned (reply, nil_error) w'
    ∧ AddNetworkReply.Success reply = false
    ∧ AddNetworkReply.IPv4Addr reply = ""
    ∧ AddNetworkReply.DeviceNumber reply = 0%Z
    ∧ AddNetworkReply.UseExternalSNAT reply = false.
Proof.
  assert (Hvpc : vpc_answer world_exhausted = Some <$> ["10.0.0.0/16"; "10.1.0.0/16"])
    by reflexivity.
  destruct (AddNetwork_reply example_add world_exhausted
              ["10.0.0.0/16"; "10.1.0.0/16"] Hvpc)
    as (reply & w' & Hrun & Hsucc & Haddr & Hdev & Hsnat & _).
  exists reply, w'. split; [exact Hrun|].
  split; [|split; [exact Haddr|split; [exact Hdev|exact Hsnat]]].
  destruct (AddNetworkReply.Success reply); [|reflexivity].
  destruct Hsucc as [Hsucc _]. specialize (Hsucc eq_refl). discriminate Hsucc.
Defined.

Lemma counters_incremented_once_exhausted :
  (∃ reply w',
     AddNetwork example_add world_exhausted = Returned (reply, nil_error) w'
     ∧ AddNetworkReply.Success reply = false
     ∧ addIPCnt w' = 1%N)
  ∧ (∃ reply w',
     DelNetwork example_del world_exhausted = Returned (reply, nil_error) w'
     ∧ DelNetworkReply.Success reply = false
     ∧ delIPCnt w' !! "PodDeleted" = Some 1%N).
Proof.
  destruct (counters_incremented_once example_add example_del world_exhausted)
    as [Hadd Hdel].
  split.
  - assert (Hvpc : vpc_answer world_exhausted = Some <$> ["10.0.0.0/16"; "10.1.0.0/16"])
      by reflexivity.
    destruct (Hadd ["10.0.0.0/16"; "10.1.0.0/16"] Hvpc)
      as (reply & w' & Hrun & Hsucc & Hcnt & _).
    exists reply, w'. split; [exact Hrun|]. split; [exact Hsucc|exact Hcnt].
  - destruct Hdel as (reply & w' & Hrun & Hsucc & Hcnt & _).
    exists reply, w'. split; [exact Hrun|]. split; [exact Hsucc|exact Hcnt].
Defined.

Lemma AddNetwork_unconditional_exhausted :
  ∃ reply w',
    AddNetwork example_add world_exhausted = Returned (reply, nil_error) w'
    ∧ AddNetworkReply.Success reply = false
    ∧ AddNetworkReply.IPv4Subnet reply = ""
    ∧ AddNetworkReply.UseExternalSNAT reply = false
    ∧ AddNetworkReply.VPCcidrs reply = ["10.0.0.0/16"; "10.1.0.0/16"; "192.168.0.0/16"].
Proof.
  assert (Hvpc : vpc_answer world_exhausted = Some <$> ["10.0.0.0/16"; "10.1.0.0/16"])
    by reflexivity.
  destruct (AddNetwork_unconditional example_add world_exhausted
              ["10.0.0.0/16"; "10.1.0.0/16"] Hvpc)
    as (reply & w' & Hrun & Hsucc & Hsub & Hsnat & Hcidrs & _).
  exists reply, w'. split; [exact Hrun|].
  split; [exact Hsucc|]. split; [exact Hsub|]. split; [exact Hsnat|exact Hcidrs].
Defined.

Lemma termination_state_once_sigterm :
  flag world_serving = false
  ∧ flag (run (EvSignal SIGTERM :: replicate 3 (EvListener 0)) world_serving) = true.
Proof.
  split; [reflexivity|].
  destruct (termination_state_once 0 (replicate 3 (EvListener 0)) world_serving)
    as (_ & _ & _ & _ & Hlive & _).
  apply (Hlive SIGTERM (mkListener AtReceive [] [SIGINT; SIGTERM])).
  - reflexivity.
  - reflexivity.
  - reflexivity.
  - apply elem_of_cons. right. apply elem_of_cons. left. reflexivity.
  - simpl. lia.
  - reflexivity.
Defined.

Lemma shutdown_transition_frame_sigint :
  flag world_signalled = false
  ∧ flag (shutdownListener_step 0 world_signalled) = true
  ∧ logs (shutdownListener_step 0 world_signalled) = logs world_signalled
  ∧ grpcServer (shutdownListener_step 0 world_signalled) = grpcServer world_signalled.
Proof.
  split; [reflexivity|].
  destruct (shutdown_transition_frame 0 world_signalled)
    as (Hset & (_ & _ & _ & Hsrv & _) & _).
  assert (Hl : listeners world_signalled !! 0
               = Some (mkListener AtSetTerminating [] [SIGINT; SIGTERM])) by reflexivity.
  destruct (Hset (mkListener AtSetTerminating [] [SIGINT; SIGTERM]) Hl eq_refl)
    as (Hflag & Hlogs & _).
  split; [exact Hflag|]. split; [exact Hlogs|exact Hsrv].
Defined.

Lemma AddNetwork_scenario_scripted :
  returned (AddNetwork example_add world_assigned)
  = Some ({| AddNetworkReply.Success := true;
             AddNetworkReply.IPv4Addr := "10.0.1.5";
             AddNetworkReply.IPv4Subnet := "";
             AddNetworkReply.DeviceNumber := 1;
             AddNetworkReply.UseExternalSNAT := false;
             AddNetworkReply.VPCcidrs := ["10.0.0.0/16"; "192.168.0.0/16"] |},
          nil_error).
Proof.
  apply (AddNetwork_scenario "/proc/4242/ns/net" world_assigned); reflexivity.
Defined.

(** A restart in between: the store knows the pod by name and namespace
    only, and the second call releases its address. *)
Example DelNetwork_after_restart :
  let w := Scripted.world [("", 0%Z, datastore_ErrUnknownPod); ("10.0.1.5", 1%Z, nil_error)]
             [] (false, []) (nil_error, ServeBlocks) in
  returned (DelNetwork example_del w)
  = Some ({| DelNetworkReply.Success := true;
             DelNetworkReply.IPv4Addr := "10.0.1.5";
             DelNetworkReply.DeviceNumber := 1 |}, nil_error)
  ∧ calls (after (DelNetwork example_del w))
    = [CallUnassign (mkPodInfo "pod-a" "ns1" "c1"); CallUnassign (mkPodInfo "pod-a" "ns1" "")].
Proof. split; reflexivity. Qed.

(** Another error of the store: no second call, and Success is false. *)
Example DelNetwork_store_fault :
  let w := Scripted.world [("", 0%Z, Some (ErrOther "datastore: pod using unknown IP"));
                           ("10.0.1.5", 1%Z, nil_error)]
             [] (false, []) (nil_error, ServeBlocks) in
  returned (DelNetwork example_del w)
  = Some ({| DelNetworkReply.Success := false;
             DelNetworkReply.IPv4Addr := "";
             DelNetworkReply.DeviceNumber := 0 |}, nil_error)
  ∧ calls (after (DelNetwork example_del w))
    = [CallUnassign (mkPodInfo "pod-a" "ns1" "c1")].
Proof. split; reflexivity. Qed.

(** SNAT done outside: the exclusion ranges are neither asked for nor
    sent. *)
Example AddNetwork_external_snat :
  returned (AddNetwork example_add world_external_snat)
  = Some ({| AddNetworkReply.Success := true;
             AddNetworkReply.IPv4Addr := "10.0.1.5";
             AddNetworkReply.IPv4Subnet := "";
             AddNetworkReply.DeviceNumber := 1;
             AddNetworkReply.UseExternalSNAT := true;
             AddNetworkReply.VPCcidrs := ["10.0.0.0/16"] |}, nil_error)
  ∧ calls (after (AddNetwork example_add world_external_snat))
    = [CallAssign (mkPodInfo "pod-a" "ns1" "c1"); CallGetVPCIPv4CIDRs; CallUseExternalSNAT].
Proof. split; reflexivity. Qed.

(** A nil pointer among the VPC ranges: AddNetwork panics at [*cidr],
    after the assign call and before the counter. *)
Example AddNetwork_nil_range :
  let w := Scripted.world [("10.0.1.5", 1%Z, nil_error)]
             [Some "10.0.0.0/16"; None] (false, []) (nil_error, ServeBlocks) in
  returned (AddNetwork example_add w) = None
  ∧ addIPCnt (after (AddNetwork example_add w)) = 0%N
  ∧ calls (after (AddNetwork example_add w))
    = [CallAssign (mkPodInfo "pod-a" "ns1" "c1"); CallGetVPCIPv4CIDRs].
Proof. repeat split; reflexivity. Qed.

(** The port is taken: RunRPCHandler returns the wrapped error and starts
    neither the goroutine nor the server. *)
Example RunRPCHandler_port_taken :
  let w := Scripted.world [] [] (false, [])
             (Some (ErrOther "listen tcp 127.0.0.1:50051: bind: address already in use"),
              ServeBlocks) in
  returned (RunRPCHandler w)
  = Some (Finished (Some (ErrWrap
      (ErrOther "listen tcp 127.0.0.1:50051: bind: address already in use")
      "ipamd: failed to listen to gRPC port")))
  ∧ listeners (after (RunRPCHandler w)) = []
  ∧ calls (after (RunRPCHandler w)) = [CallListen "tcp" "127.0.0.1:50051"].
Proof. repeat split; reflexivity. Qed.

(** A signal before the goroutine has registered takes its default
    action. *)
Example signal_before_registration :
  alive (run [EvRunRPCHandler; EvListener 0; EvSignal SIGTERM] world_assigned) = false
  ∧ flag (run [EvRunRPCHandler; EvListener 0; EvSignal SIGTERM; EvListener 0]
            world_assigned) = false.
Proof. split; reflexivity. Qed.

(** A second signal after the transition: the Termination State stays
    true and the process stays alive. *)
Example second_signal :
  let sched := EvSignal SIGINT :: replicate 3 (EvListener 0)
               ++ [EvSignal SIGTERM; EvListener 0; EvSignal SIGINT; EvListener 0] in
  flags sched world_serving
  = [false; false; false; false; true; true; true; true; true]
  ∧ alive (run sched world_serving) = true
  ∧ receives 0 sched world_serving = 1.
Proof. repeat split; reflexivity. Qed.

(** ** More on the handlers *)

Section MoreOnHandlers.
Context {DS AWS NET OS : Type}.
Context `{!DataStoreAPI DS, !AWSAPIs AWS, !NetworkAPIs NET, !Runtime OS}.
Implicit Types (w : World DS AWS NET OS).

(** The first loop, when it panics, has written log lines and nothing
    else. *)
Lemma vpc_loop_nil_world (vpc : list (option string)) : ∀ (acc : list string) w,
  None ∈ vpc →
  ∃ entries, for_range vpc (fun pbVPCcidrs cidr =>
    let* s := deref cidr in
    let* _ := log_Debugf "VPC CIDR %s" [AStr s] in
    let* s' := deref cidr in
    ret (pbVPCcidrs ++ [s'])) acc w = Panicked (set_logs (logs w ++ entries) w).
Proof.
  induction vpc as [|p vpc IH]; intros acc w Hin.
  - inversion Hin.
  - destruct p as [s|].
    + simpl. unfold bind at 1. simpl. unfold bind at 1. simpl.
      apply elem_of_cons in Hin as [Heq|Hin]; [discriminate|].
      destruct (IH (acc ++ [s])
                  (set_logs (logs w ++ [mkLog LvlDebug "VPC CIDR %s" [AStr s]]) w) Hin)
        as (entries & Hrec).
      exists (mkLog LvlDebug "VPC CIDR %s" [AStr s] :: entries).
      etransitivity; [exact Hrec|].
      simpl. rewrite <- app_assoc. reflexivity.
    + exists []. simpl. rewrite app_nil_r, set_logs_same. reflexivity.
Qed.

(** The world AddNetwork panics in. *)
Lemma AddNetwork_panic_world (in_ : AddNetworkRequest.t) w :
  None ∈ vpc_answer w →
  ∃ entries,
    AddNetwork in_ w = Panicked
      (mkWorld
         (mkContext
            (AssignPodIPv4Address (add_identity in_) (dataStore (ipamContext w))).2
            (GetVPCIPv4CIDRs (awsClient (ipamContext w))).2
            (networkClient (ipamContext w))
            (terminating (ipamContext w)))
         (addIPCnt w) (delIPCnt w) (logs w ++ entries)
         (calls w ++ [CallAssign (add_identity in_); CallGetVPCIPv4CIDRs])
         (os w) (grpcServer w) (listeners w) (alive w)).
Proof.
  unfold vpc_answer, add_identity.
  destruct w as [[ds0 aws0 net0 term0] add0 del0 logs0 calls0 os0 srv0 ls0 al0].
  simpl. intros Hnil. unfold AddNetwork.
  unfold bind at 1. simpl.
  unfold bind at 1. unfold dataStore_Assign at 1. simpl.
  destruct (AssignPodIPv4Address _ _) as [[[addr dev] err] ds] eqn:HA. simpl.
  unfold bind at 1. unfold awsClient_GetVPCIPv4CIDRs at 1. simpl.
  destruct (GetVPCIPv4CIDRs _) as [vpc a] eqn:HV. simpl in Hnil. simpl.
  unfold bind at 1.
  match goal with |- context [for_range vpc ?b ?acc ?w0] =>
    destruct (vpc_loop_nil_world vpc acc w0 Hnil) as (entries & ->)
  end.
  world_fields. eexists. rewrite <- !app_assoc. reflexivity.
Qed.

Lemma int32_range (x : Z) : (- 2 ^ 31 ≤ int32 x < 2 ^ 31)%Z.
Proof.
  unfold int32. pose proof (Z.mod_pos_bound (x + 2 ^ 31) (2 ^ 32)) as Hb. lia.
Qed.

Lemma int32_wraps (x : Z) : ∃ k : Z, (int32 x = x + k * 2 ^ 32)%Z.
Proof.
  unfold int32. exists (- ((x + 2 ^ 31) `div` 2 ^ 32))%Z.
  pose proof (Z.div_mod (x + 2 ^ 31) (2 ^ 32)) as Hd. lia.
Qed.

Lemma int32_fixed (x : Z) : int32 x = x ↔ (- 2 ^ 31 ≤ x < 2 ^ 31)%Z.
Proof.
  split.
  - intros <-. apply int32_range.
  - apply int32_in_range.
Qed.

(** X1.  The address and the device number in DelNetwork's reply are
    those of the last unassign attempt: after a first answer other than
    [datastore.ErrUnknownPod] they are the first attempt's, and after
    [datastore.ErrUnknownPod] they are the second attempt's, whatever
    the first attempt returned beside its error.  So when the store
    knows the pod by name and namespace only and the second attempt
    succeeds, the reply has Success true and the address that attempt
    released. *)
Theorem DelNetwork_reply_source (in_ : DelNetworkRequest.t) w :
  ∃ reply w',
    DelNetwork in_ w = Returned (reply, nil_error) w'
    ∧ ((first_unassign in_ w).2 ≠ datastore_ErrUnknownPod →
       DelNetworkReply.IPv4Addr reply = (first_unassign in_ w).1.1
       ∧ DelNetworkReply.DeviceNumber reply = int32 (first_unassign in_ w).1.2)
    ∧ ((first_unassign in_ w).2 = datastore_ErrUnknownPod →
       DelNetworkReply.IPv4Addr reply = (second_unassign in_ w).1.1
       ∧ DelNetworkReply.DeviceNumber reply = int32 (second_unassign in_ w).1.2
       ∧ ((second_unassign in_ w).2 = nil_error →
          DelNetworkReply.Success reply = true)).
Proof.
  destruct (DelNetwork_run in_ w) as (w' & Hrun & _).
  exists (del_reply in_ w), w'. split; [exact Hrun|].
  unfold del_reply, final_unassign, retries. simpl. split.
  - intros Hother. rewrite bool_decide_eq_false_2 by exact Hother. auto.
  - intros Hunk. rewrite bool_decide_eq_true_2 by exact Hunk.
    split; [reflexivity|]. split; [reflexivity|].
    intros Hok. apply bool_decide_eq_true. left. exact Hok.
Qed.

(** X2.  AddNetwork panics exactly when one of the pointers returned by
    GetVPCIPv4CIDRs is nil.  It does so after the assign call, so the
    store stays as that call left it, and before [addIPCnt.Inc()]: the
    counter is not incremented, SNAT is not asked about, and no reply is
    built. *)
Theorem AddNetwork_nil_range_panics (in_ : AddNetworkRequest.t) w :
  ((∃ w', AddNetwork in_ w = Panicked w') ↔ None ∈ vpc_answer w)
  ∧ (None ∈ vpc_answer w →
     ∃ w', AddNetwork in_ w = Panicked w'
       ∧ dataStore (ipamContext w')
         = (AssignPodIPv4Address (add_identity in_) (dataStore (ipamContext w))).2
       ∧ calls w' = calls w ++ [CallAssign (add_identity in_); CallGetVPCIPv4CIDRs]
       ∧ addIPCnt w' = addIPCnt w
       ∧ delIPCnt w' = delIPCnt w).
Proof.
  split.
  - split.
    + intros [w' Hpanic].
      destruct (nil_or_all_valid (vpc_answer w)) as [[base Hvpc]|Hnil]; [|exact Hnil].
      destruct (AddNetwork_run in_ w base Hvpc) as (w'' & Hrun & _).
      rewrite Hrun in Hpanic. discriminate.
    + intros Hnil. destruct (AddNetwork_panic_world in_ w Hnil) as (entries & Hp).
      eexists. exact Hp.
  - intros Hnil. destruct (AddNetwork_panic_world in_ w Hnil) as (entries & Hp).
    eexists. split; [exact Hp|]. simpl. repeat split; reflexivity.
Qed.

(** The world AddNetwork returns in. *)
Lemma AddNetwork_return_world (in_ : AddNetworkRequest.t) w (base : list string) :
  vpc_answer w = Some <$> base →
  ∃ entries,
    AddNetwork in_ w = Returned (add_reply in_ w base, nil_error)
      (mkWorld
         (mkContext
            (AssignPodIPv4Address (add_identity in_) (dataStore (ipamContext w))).2
            (GetVPCIPv4CIDRs (awsClient (ipamContext w))).2
            (if snat_answer w
             then (UseExternalSNAT (networkClient (ipamContext w))).2
             else (GetExcludeSNATCIDRs
                     (UseExternalSNAT (networkClient (ipamContext w))).2).2)
            (terminating (ipamContext w)))
         (addIPCnt w + 1)%N (delIPCnt w) (logs w ++ entries)
         (calls w ++
            [CallAssign (add_identity in_); CallGetVPCIPv4CIDRs; CallUseExternalSNAT]
            ++ (if snat_answer w then [] else [CallGetExcludeSNATCIDRs]))
         (os w) (grpcServer w) (listeners w) (alive w)).
Proof.
  unfold add_reply, assign_answer, vpc_answer, snat_answer, exclusion_answer, add_identity.
  destruct w as [[ds0 aws0 net0 term0] add0 del0 logs0 calls0 os0 srv0 ls0 al0].
  simpl. intros Hvpc. unfold AddNetwork.
  unfold bind at 1. simpl.
  unfold bind at 1. unfold dataStore_Assign at 1. simpl.
  destruct (AssignPodIPv4Address _ _) as [[[addr dev] err] ds] eqn:HA. simpl.
  unfold bind at 1. unfold awsClient_GetVPCIPv4CIDRs at 1. simpl.
  destruct (GetVPCIPv4CIDRs _) as [vpc a] eqn:HV. simpl in Hvpc. subst vpc. simpl.
  unfold bind at 1. rewrite vpc_loop. simpl.
  unfold bind at 1. unfold networkClient_UseExternalSNAT at 1. simpl.
  destruct (UseExternalSNAT _) as [snat n] eqn:HS. simpl.
  destruct snat; simpl.
  - rewrite app_nil_r.
    world_fields. eexists. rewrite <- !app_assoc. reflexivity.
  - unfold bind at 1. unfold bind at 1.
    unfold networkClient_GetExcludeSNATCIDRs at 1. simpl.
    destruct (GetExcludeSNATCIDRs n) as [excl n'] eqn:HE. simpl.
    rewrite exclusion_loop. simpl.
    world_fields. eexists. rewrite <- !app_assoc. reflexivity.
Qed.

(** The world DelNetwork returns in. *)
Lemma DelNetwork_return_world (in_ : DelNetworkRequest.t) w :
  ∃ entries,
    DelNetwork in_ w = Returned (del_reply in_ w, nil_error)
      (mkWorld
         (mkContext
            (if retries in_ w
             then (UnassignPodIPv4Address (fallback_identity in_)
                     (UnassignPodIPv4Address (full_identity in_)
                        (dataStore (ipamContext w))).2).2
             else (UnassignPodIPv4Address (full_identity in_)
                     (dataStore (ipamContext w))).2)
            (awsClient (ipamContext w))
            (networkClient (ipamContext w))
            (terminating (ipamContext w)))
         (addIPCnt w)
         (<[DelNetworkRequest.Reason in_ :=
              (default 0%N (delIPCnt w !! DelNetworkRequest.Reason in_) + 1)%N]>
            (delIPCnt w))
         (logs w ++ entries)
         (calls w ++ CallUnassign (full_identity in_)
            :: (if retries in_ w then [CallUnassign (fallback_identity in_)] else []))
         (os w) (grpcServer w) (listeners w) (alive w)).
Proof.
  unfold del_reply, final_unassign, retries, second_unassign, first_unassign,
    full_identity, fallback_identity.
  destruct w as [[ds0 aws0 net0 term0] add0 del0 logs0 calls0 os0 srv0 ls0 al0].
  simpl. unfold DelNetwork.
  unfold bind at 1. simpl.
  unfold bind at 1. simpl.
  unfold bind at 1. unfold dataStore_Unassign at 1. simpl.
  destruct (UnassignPodIPv4Address _ ds0) as [[[ip dev] err] ds] eqn:HU. simpl.
  rewrite retry_condition.
  destruct (bool_decide (err = datastore_ErrUnknownPod)) eqn:Hretry.
  - unfold bind at 1. unfold dataStore_Unassign at 1. simpl.
    destruct (UnassignPodIPv4Address _ ds) as [[[ip2 dev2] err2] ds2] eqn:HU2. simpl.
    unfold bind at 1. simpl. rewrite failure_condition.
    world_fields. eexists. rewrite <- !app_assoc. reflexivity.
  - unfold bind at 1. simpl.
    unfold bind at 1. simpl. rewrite failure_condition.
    world_fields. eexists. rewrite <- !app_assoc. reflexivity.
Qed.

(** X3.  AddNetwork reads the Netns and the IfName of a request for its
    first log line only: two requests with the same pod name, namespace
    and container ID, run from the same world, get the same reply (or
    both panic), make the same calls on the collaborators and leave the
    same store and the same counter. *)
Theorem AddNetwork_same_identity (in1 in2 : AddNetworkRequest.t) w :
  add_identity in1 = add_identity in2 →
  returned (AddNetwork in1 w) = returned (AddNetwork in2 w)
  ∧ calls (after (AddNetwork in1 w)) = calls (after (AddNetwork in2 w))
  ∧ addIPCnt (after (AddNetwork in1 w)) = addIPCnt (after (AddNetwork in2 w))
  ∧ ipamContext (after (AddNetwork in1 w)) = ipamContext (after (AddNetwork in2 w)).
Proof.
  intros Hid.
  destruct (nil_or_all_valid (vpc_answer w)) as [[base Hvpc]|Hnil].
  - destruct (AddNetwork_return_world in1 w base Hvpc) as (e1 & ->).
    destruct (AddNetwork_return_world in2 w base Hvpc) as (e2 & ->).
    simpl. unfold add_reply, assign_answer. rewrite Hid. repeat split; reflexivity.
  - destruct (AddNetwork_panic_world in1 w Hnil) as (e1 & ->).
    destruct (AddNetwork_panic_world in2 w Hnil) as (e2 & ->).
    simpl. rewrite Hid. repeat split; reflexivity.
Qed.

(** X4.  DelNetwork reads the IPv4Addr of a request for its first log
    line only, and the Reason for the counter label only: two requests
    with the same pod name, namespace and container ID, run from the
    same world, get the same reply, whose address is the store's and
    not the request's, make the same calls on the store and leave the
    same store. *)
Theorem DelNetwork_same_identity (in1 in2 : DelNetworkRequest.t) w :
  full_identity in1 = full_identity in2 →
  returned (DelNetwork in1 w) = returned (DelNetwork in2 w)
  ∧ calls (after (DelNetwork in1 w)) = calls (after (DelNetwork in2 w))
  ∧ ipamContext (after (DelNetwork in1 w)) = ipamContext (after (DelNetwork in2 w)).
Proof.
  intros Hid.
  assert (Hfb : fallback_identity in1 = fallback_identity in2).
  { unfold full_identity in Hid. unfold fallback_identity.
    injection Hid as -> -> _. reflexivity. }
  destruct (DelNetwork_return_world in1 w) as (e1 & ->).
  destruct (DelNetwork_return_world in2 w) as (e2 & ->).
  simpl. unfold del_reply, final_unassign, retries, second_unassign, first_unassign.
  rewrite Hid, Hfb. repeat split; reflexivity.
Qed.

(** X5.  The DeviceNumber of both replies is the store's device number
    converted to int32: it always lies between -2^31 and 2^31 - 1, it
    differs from the store's number by a multiple of 2^32, and it is the
    store's number exactly when that one fits 32 bits. *)
Theorem DeviceNumber_int32 (a : AddNetworkRequest.t) (d : DelNetworkRequest.t) w :
  (∀ base : list string, vpc_answer w = Some <$> base →
   ∃ reply w',
     AddNetwork a w = Returned (reply, nil_error) w'
     ∧ (- 2 ^ 31 ≤ AddNetworkReply.DeviceNumber reply < 2 ^ 31)%Z
     ∧ (∃ k : Z, AddNetworkReply.DeviceNumber reply
                 = (assign_answer a w).1.2 + k * 2 ^ 32)%Z
     ∧ (AddNetworkReply.DeviceNumber reply = (assign_answer a w).1.2
        ↔ (- 2 ^ 31 ≤ (assign_answer a w).1.2 < 2 ^ 31)%Z))
  ∧ (∃ reply w',
     DelNetwork d w = Returned (reply, nil_error) w'
     ∧ (- 2 ^ 31 ≤ DelNetworkReply.DeviceNumber reply < 2 ^ 31)%Z
     ∧ (∃ k : Z, DelNetworkReply.DeviceNumber reply
                 = (final_unassign d w).1.2 + k * 2 ^ 32)%Z
     ∧ (DelNetworkReply.DeviceNumber reply = (final_unassign d w).1.2
        ↔ (- 2 ^ 31 ≤ (final_unassign d w).1.2 < 2 ^ 31)%Z)).
Proof.
  split.
  - intros base Hvpc.
    destruct (AddNetwork_run a w base Hvpc) as (w' & Hrun & _).
    exists (add_reply a w base), w'. split; [exact Hrun|].
    unfold add_reply; simpl.
    split; [apply int32_range|]. split; [apply int32_wraps|apply int32_fixed].
  - destruct (DelNetwork_run d w) as (w' & Hrun & _).
    exists (del_reply d w), w'. split; [exact Hrun|].
    unfold del_reply; simpl.
    split; [apply int32_range|]. split; [apply int32_wraps|apply int32_fixed].
Qed.

End MoreOnHandlers.

(** ** More on bringing the service up *)

Section MoreOnBringUp.
Context {DS AWS NET OS : Type}.
Context `{!DataStoreAPI DS, !AWSAPIs AWS, !NetworkAPIs NET, !Runtime OS}.
Implicit Types (w : World DS AWS NET OS).

(** The world RunRPCHandler leaves. *)
Lemma RunRPCHandler_world w :
  ∃ entries,
    RunRPCHandler w = Returned (run_result w)
      (mkWorld (ipamContext w) (addIPCnt w) (delIPCnt w) (logs w ++ entries)
         (calls w ++ CallListen "tcp" ipamdgRPCaddress
            :: (match listen_answer w with Some _ => [] | None => [CallServe] end))
         (match listen_answer w with
          | Some _ => (net_Listen "tcp" ipamdgRPCaddress (os w)).2
          | None => (grpc_Serve (net_Listen "tcp" ipamdgRPCaddress (os w)).2).2
          end)
         (match listen_answer w with
          | Some _ => grpcServer w
          | None =>
              Some (mkServer
                      ["rpc.CNIBackend"; "grpc.health.v1.Health";
                       "grpc.reflection.v1alpha.ServerReflection"]
                      (<[health_check := true]> ∅) false)
          end)
         (match listen_answer w with
          | Some _ => listeners w
          | None => listeners w ++ [new_listener]
          end)
         (alive w)).
Proof.
  unfold run_result, listen_answer, serve_answer, RunRPCHandler.
  destruct w as [ctx0 add0 del0 logs0 calls0 os0 srv0 ls0 al0]. simpl.
  unfold bind at 1. simpl.
  unfold bind at 1. unfold os_net_Listen at 1. simpl.
  destruct (net_Listen _ _ _) as [lerr o] eqn:HL. simpl.
  destruct lerr as [e|]; simpl.
  - unfold bind at 1. simpl.
    world_fields. eexists. rewrite <- ?app_assoc. reflexivity.
  - do 7 (unfold bind at 1; simpl). unfold server_Serve at 1. simpl.
    destruct (grpc_Serve o) as [sr o'] eqn:HS. simpl.
    destruct sr as [|[e|]]; simpl.
    + world_fields. eexists. rewrite <- ?app_assoc. reflexivity.
    + unfold bind at 1. simpl.
        world_fields. eexists. rewrite <- ?app_assoc. reflexivity.
    + world_fields. eexists. rewrite <- ?app_assoc. reflexivity.
Qed.

(** X6.  When [net.Listen] on tcp 127.0.0.1:50051 fails, RunRPCHandler
    returns that error wrapped with its listen message and has done
    nothing else that lasts: no server is built, no shutdown goroutine is
    started, [Serve] is never called, and the context and the counters
    are as before. *)
Theorem RunRPCHandler_listen_fails w (e : error_value) :
  listen_answer w = Some e →
  ∃ w',
    RunRPCHandler w
    = Returned (Finished (Some (ErrWrap e "ipamd: failed to listen to gRPC port"))) w'
    ∧ calls w' = calls w ++ [CallListen "tcp" "127.0.0.1:50051"]
    ∧ grpcServer w' = grpcServer w
    ∧ listeners w' = listeners w
    ∧ ipamContext w' = ipamContext w
    ∧ addIPCnt w' = addIPCnt w
    ∧ delIPCnt w' = delIPCnt w.
Proof.
  intros Hl. destruct (RunRPCHandler_world w) as (entries & Hrun).
  unfold run_result in Hrun. rewrite Hl in Hrun.
  eexists. split; [exact Hrun|]. simpl. repeat split; reflexivity.
Qed.

(** X7.  When [net.Listen] on tcp 127.0.0.1:50051 succeeds,
    RunRPCHandler builds a server that is not stopped and reports the
    health check grpc.health.v1.aws-node as serving, starts exactly one
    shutdown goroutine, at its first statement, and only then calls
    [Serve], once.  The goroutine is started whatever [Serve] does: it
    is there also when [Serve] fails and RunRPCHandler returns that
    error wrapped with its serve message. *)
Theorem RunRPCHandler_starts_service w :
  listen_answer w = nil_error →
  ∃ w' s,
    RunRPCHandler w
    = Returned
        (match serve_answer w with
         | ServeBlocks => Forever
         | ServeReturns None => Finished nil_error
         | ServeReturns (Some e) =>
             Finished (Some (ErrWrap e "ipamd: failed to start server on gPRC port"))
         end) w'
    ∧ grpcServer w' = Some s
    ∧ health s !! "grpc.health.v1.aws-node" = Some true
    ∧ stopped s = false
    ∧ listeners w' = listeners w ++ [new_listener]
    ∧ calls w' = calls w ++ [CallListen "tcp" "127.0.0.1:50051"; CallServe]
    ∧ ipamContext w' = ipamContext w.
Proof.
  intros Hl. destruct (RunRPCHandler_world w) as (entries & Hrun).
  unfold run_result in Hrun. unfold nil_error in Hl. rewrite Hl in Hrun.
  eexists. eexists. split.
  - exact Hrun.
  - simpl. split; [reflexivity|]. split; [apply lookup_insert_eq|].
    repeat split; reflexivity.
Qed.

Lemma deliver_grpcServer (s : Signal) w : grpcServer (deliver s w) = grpcServer w.
Proof. unfold deliver. destruct (bool_decide _); reflexivity. Qed.

Lemma exec_serving (e : Event) w : serving w → serving (exec e w).
Proof.
  intros Hs. unfold exec. destruct (alive w); [|exact Hs].
  destruct e as [s|i|in_|in_|].
  - unfold serving. rewrite deliver_grpcServer. exact Hs.
  - unfold serving. destruct (step_frame i w) as (_ & _ & _ & -> & _). exact Hs.
  - unfold serving. destruct (after_AddNetwork in_ w) as (_ & _ & ->). exact Hs.
  - unfold serving. destruct (after_DelNetwork in_ w) as (_ & _ & ->). exact Hs.
  - destruct (RunRPCHandler_world w) as (entries & ->). simpl.
    unfold serving. simpl. destruct (listen_answer w); [exact Hs|].
    intros s [= <-]. simpl. split; [apply lookup_insert_eq|reflexivity].
Qed.

(** X8.  Nothing in this file stops the server or changes a health
    status once set: along every schedule of signals, goroutine steps,
    RPCs and bring-ups, a server that exists is not stopped and reports
    grpc.health.v1.aws-node as serving, also in a world where the
    Termination State is true. *)
Theorem health_stays_serving (sched : list Event) : ∀ w,
  serving w →
  ∀ s, grpcServer (run sched w) = Some s →
       health s !! "grpc.health.v1.aws-node" = Some true ∧ stopped s = false.
Proof.
  induction sched as [|e sched IH]; intros w Hs; [exact Hs|].
  rewrite run_cons. apply IH, exec_serving, Hs.
Qed.

End MoreOnBringUp.

(** ** More on the shutdown goroutine *)

Section MoreOnShutdown.
Context {DS AWS NET OS : Type}.
Context `{!DataStoreAPI DS, !AWSAPIs AWS, !NetworkAPIs NET, !Runtime OS}.
Implicit Types (w : World DS AWS NET OS) (l : Listener).

(** Whatever holds of a fresh goroutine and is kept by a statement of
    shutdownListener and by a relayed signal holds of every goroutine
    along a schedule. *)
Lemma exec_listeners_Forall (P : Listener → Prop) (e : Event) w :
  (∀ l w0, P l → P (shutdownListener_next l w0).1) →
  (∀ s l, P l → P (relay s l)) →
  P new_listener →
  Forall P (listeners w) → Forall P (listeners (exec e w)).
Proof.
  intros Hnext Hrelay Hnew Hall. unfold exec.
  destruct (alive w); [|exact Hall].
  destruct e as [s|j|in_|in_|].
  - unfold deliver. destruct (bool_decide _); simpl; [|exact Hall].
    apply Forall_fmap. eapply Forall_impl; [exact Hall|]. intros l Hl. apply Hrelay, Hl.
  - destruct (listeners w !! j) as [l|] eqn:Hj.
    + rewrite (step_unfold j w l Hj). simpl.
      apply Forall_insert; [exact Hall|].
      apply Hnext. exact (Forall_lookup_1 _ _ _ _ Hall Hj).
    + rewrite step_missing by exact Hj. exact Hall.
  - destruct (after_AddNetwork in_ w) as (_ & -> & _). exact Hall.
  - destruct (after_DelNetwork in_ w) as (_ & -> & _). exact Hall.
  - destruct (after_RunRPCHandler w) as (_ & [-> | ->]); [exact Hall|].
    apply Forall_app. split; [exact Hall|]. apply Forall_singleton, Hnew.
Qed.

Lemma next_as_coded l w : as_coded l → as_coded (shutdownListener_next l w).1.
Proof.
  intros Hc. unfold as_coded in *. unfold shutdownListener_next.
  destruct (pc l) eqn:Hpc.
  - simpl. exact Hc.
  - simpl. destruct Hc as [Hn _]. auto.
  - simpl. destruct Hc as [-> ->]. simpl. split; [reflexivity|lia].
  - simpl. destruct Hc as [-> Hb]. auto.
  - destruct Hc as [Hn Hb]. destruct (sig_buf l) as [|x rest] eqn:Hbuf.
    + simpl. rewrite Hpc, Hbuf. auto.
    + simpl. split; [exact Hn|]. simpl in Hb. lia.
  - simpl. exact Hc.
  - simpl. exact Hc.
  - simpl. rewrite Hpc. exact Hc.
Qed.

Lemma relay_as_coded (s : Signal) l : as_coded l → as_coded (relay s l).
Proof.
  unfold relay.
  destruct (bool_decide (s ∈ notified l)) eqn:Hin; simpl; [|auto].
  destruct (bool_decide (length (sig_buf l) < 1)) eqn:Hlen; simpl; [|auto].
  apply bool_decide_eq_true in Hin, Hlen.
  unfold as_coded. simpl.
  destruct (pc l); intros [Hn Hb]; try (rewrite Hn in Hin; inversion Hin; fail);
    (split; [exact Hn|]); rewrite length_app; simpl; lia.
Qed.

Lemma run_as_coded (sched : list Event) : ∀ w,
  Forall as_coded (listeners w) → Forall as_coded (listeners (run sched w)).
Proof.
  induction sched as [|e sched IH]; intros w Hall; [exact Hall|].
  rewrite run_cons. apply IH. apply exec_listeners_Forall; try assumption.
  - intros l w0. apply next_as_coded.
  - apply relay_as_coded.
  - split; reflexivity.
Qed.

(** X9.  Along every schedule, every shutdown goroutine is registered
    for what the statements it has run registered it for, and its
    channel holds one signal at most: nothing before its first
    [signal.Notify], SIGINT after it, SIGINT and SIGTERM after the
    second.  So a goroutine waiting at [<-sig] is registered for both
    signals and for nothing else, and a signal that finds the channel
    full is dropped. *)
Theorem goroutine_registration (sched : list Event) w :
  Forall as_coded (listeners w) →
  ∀ i l, listeners (run sched w) !! i = Some l →
    length (sig_buf l) ≤ 1
    ∧ (pc l = AtLogSetup ∨ pc l = AtMakeChan ∨ pc l = AtNotifyINT → notified l = [])
    ∧ (pc l = AtNotifyTERM → notified l = [SIGINT])
    ∧ (pc l = AtReceive ∨ past_receive l = true → notified l = [SIGINT; SIGTERM])
    ∧ (∀ s, length (sig_buf l) = 1 → relay s l = l).
Proof.
  intros Hall i l Hl.
  pose proof (Forall_lookup_1 _ _ _ _ (run_as_coded sched w Hall) Hl) as Hc.
  unfold as_coded in Hc. unfold past_receive.
  assert (Hlen : length (sig_buf l) ≤ 1)
    by (destruct (pc l); destruct Hc as [_ Hb]; try rewrite Hb; simpl; lia).
  split; [exact Hlen|].
  split; [intros [Hpc|[Hpc|Hpc]]; rewrite Hpc in Hc; apply Hc|].
  split; [intros Hpc; rewrite Hpc in Hc; apply Hc|].
  split.
  - intros [Hpc|Hpc]; [rewrite Hpc in Hc; apply Hc|].
    destruct (pc l); try discriminate Hpc; apply Hc.
  - intros s Hfull. unfold relay.
    rewrite (bool_decide_eq_false_2 (length (sig_buf l) < 1)) by lia.
    rewrite andb_false_r. reflexivity.
Qed.

(** *** A signal during the set-up *)

Lemma bystander_steps_to_flag (e : Event) l l' k :
  bystander e l l' → steps_to_flag l = Some k → steps_to_flag l' = Some k.
Proof.
  unfold bystander, steps_to_flag. intros (Hpc & _ & Hbuf) Hk. rewrite Hpc.
  destruct (pc l); try discriminate Hk; try exact Hk.
  - destruct Hbuf as [->|[Hnil _]]; [exact Hk|].
    rewrite Hnil in Hk. rewrite bool_decide_eq_false_2 in Hk by auto. discriminate.
  - destruct Hbuf as [->|[Hnil _]]; [exact Hk|].
    rewrite Hnil in Hk. rewrite bool_decide_eq_false_2 in Hk by auto. discriminate.
Qed.

Lemma on_the_way_bystander (e : Event) (i n : nat) w :
  is_step i e = false ∨ alive w = false → on_the_way i n w → on_the_way i n (exec e w).
Proof.
  intros Hother [Hflag|(l & k & Hl & Hk & Hle)].
  - left. apply exec_flag_stays, Hflag.
  - right. destruct (exec_bystander e i w l Hl Hother) as (l' & Hl' & Hby).
    exists l', k. split; [exact Hl'|]. split; [|exact Hle].
    eapply bystander_steps_to_flag; eassumption.
Qed.

Lemma steps_to_flag_positive l k : steps_to_flag l = Some k → 1 ≤ k.
Proof.
  unfold steps_to_flag.
  destruct (pc l); try discriminate; try (intros [= <-]; lia);
    destruct (bool_decide _); try discriminate; intros [= <-]; lia.
Qed.

Lemma on_the_way_own_step (i n : nat) w :
  alive w = true → on_the_way i (S n) w → on_the_way i n (exec (EvListener i) w).
Proof.
  intros Ha [Hflag|(l & k & Hl & Hk & Hle)].
  - left. apply exec_flag_stays, Hflag.
  - pose proof (exec_own_step i w l Ha Hl) as Hnext.
    unfold steps_to_flag in Hk.
    destruct (pc l) eqn:Hpc; try discriminate Hk.
    + destruct (sig_buf l) as [|x rest] eqn:Hbuf.
      { rewrite bool_decide_eq_false_2 in Hk by auto. discriminate. }
      rewrite bool_decide_eq_true_2 in Hk by discriminate.
      injection Hk as <-. right. eexists. exists 3. split; [exact Hnext|].
      unfold shutdownListener_next, steps_to_flag. rewrite Hpc. simpl. rewrite Hbuf.
      rewrite bool_decide_eq_true_2 by discriminate. split; [reflexivity|lia].
    + destruct (sig_buf l) as [|x rest] eqn:Hbuf.
      { rewrite bool_decide_eq_false_2 in Hk by auto. discriminate. }
      rewrite bool_decide_eq_true_2 in Hk by discriminate.
      injection Hk as <-. right. eexists. exists 2. split; [exact Hnext|].
      unfold shutdownListener_next, steps_to_flag. rewrite Hpc, Hbuf. simpl.
      split; [reflexivity|lia].
    + injection Hk as <-. right. eexists. exists 1. split; [exact Hnext|].
      unfold shutdownListener_next, steps_to_flag. rewrite Hpc. simpl.
      split; [reflexivity|lia].
    + left. unfold exec. rewrite Ha, (step_unfold i w l Hl).
      assert (Hf : ∀ ls w0, flag (set_listeners ls w0) = flag w0) by reflexivity.
      rewrite Hf, next_flag. rewrite bool_decide_eq_true_2 by exact Hpc. reflexivity.
Qed.

Lemma on_the_way_run (i : nat) (sched : list Event) : ∀ n w,
  on_the_way i n w → n ≤ scheduled i sched → alive (run sched w) = true →
  flag (run sched w) = true.
Proof.
  induction sched as [|e sched IH]; intros n w Hin Hn Hal.
  - simpl in *. destruct Hin as [Hflag|(l & k & Hl & Hk & Hle)]; [exact Hflag|].
    apply steps_to_flag_positive in Hk. lia.
  - rewrite run_cons in *.
    destruct (alive w) eqn:Ha.
    2:{ rewrite exec_dead in Hal by exact Ha. rewrite run_dead in Hal by exact Ha.
        congruence. }
    simpl in Hn. destruct (is_step i e) eqn:He.
    + destruct e as [|j| | |]; try discriminate He. simpl in He.
      apply bool_decide_eq_true in He as ->.
      destruct n as [|n].
      * apply (IH 0); [|lia|exact Hal].
        destruct Hin as [Hflag|(l & k & Hl & Hk & Hle)].
        -- left. apply exec_flag_stays, Hflag.
        -- apply steps_to_flag_positive in Hk. lia.
      * apply (IH n); [|lia|exact Hal]. apply on_the_way_own_step; assumption.
    + apply (IH n); [|lia|exact Hal]. apply on_the_way_bystander; auto.
Qed.

(** X10.  The channel is buffered, so a signal is not lost while the
    goroutine is busy: SIGINT arriving between the two [signal.Notify]
    calls, or either signal arriving before the goroutine has reached
    [<-sig], is kept in the channel, and once the goroutine has been
    scheduled four more times the Termination State is true (the process
    being alive). *)
Theorem signal_during_setup_kept (i : nat) (s : Signal) (sched : list Event) w l :
  alive w = true →
  listeners w !! i = Some l →
  pc l = AtNotifyTERM ∨ pc l = AtReceive →
  s ∈ notified l →
  4 ≤ scheduled i sched →
  alive (run (EvSignal s :: sched) w) = true →
  flag (run (EvSignal s :: sched) w) = true.
Proof.
  intros Ha Hl Hpc Hin Hn Hal. rewrite run_cons in *.
  apply (on_the_way_run i sched 4); [|exact Hn|exact Hal].
  right. unfold exec. rewrite Ha. unfold deliver.
  rewrite bool_decide_eq_true_2.
  2:{ apply Exists_exists. exists l. split; [|exact Hin].
      eapply list_elem_of_lookup_2, Hl. }
  simpl. rewrite list_lookup_fmap, Hl. simpl.
  assert (Hbuf : sig_buf (relay s l) ≠ [] ∧ pc (relay s l) = pc l).
  { unfold relay. rewrite (bool_decide_eq_true_2 (s ∈ notified l)) by exact Hin. simpl.
    destruct (sig_buf l) as [|x rest] eqn:Hb; simpl.
    - split; [discriminate|reflexivity].
    - rewrite Hb. split; [discriminate|reflexivity]. }
  destruct Hbuf as [Hne Hsame].
  destruct Hpc as [Hpc|Hpc].
  - exists (relay s l), 4. split; [reflexivity|]. split; [|lia].
    unfold steps_to_flag. rewrite Hsame, Hpc.
    rewrite bool_decide_eq_true_2 by exact Hne. reflexivity.
  - exists (relay s l), 3. split; [reflexivity|]. split; [|lia].
    unfold steps_to_flag. rewrite Hsame, Hpc.
    rewrite bool_decide_eq_true_2 by exact Hne. reflexivity.
Qed.


End MoreOnShutdown.

(** ** The handlers along a schedule *)

Section MoreOnSchedules.
Context {DS AWS NET OS : Type}.
Context `{!DataStoreAPI DS, !AWSAPIs AWS, !NetworkAPIs NET, !Runtime OS}.
Implicit Types (w : World DS AWS NET OS).

Lemma deliver_counters (s : Signal) w :
  addIPCnt (deliver s w) = addIPCnt w ∧ delIPCnt (deliver s w) = delIPCnt w.
Proof. unfold deliver. destruct (bool_decide _); split; reflexivity. Qed.

(** What one event adds to the counters, when the process survives it. *)
Lemma exec_counters (e : Event) w :
  alive (exec e w) = true →
  addIPCnt (exec e w) = (addIPCnt w + N.of_nat (attach_calls [e]))%N
  ∧ ∀ reason,
      default 0%N (delIPCnt (exec e w) !! reason)
      = (default 0%N (delIPCnt w !! reason) + N.of_nat (detach_calls reason [e]))%N.
Proof.
  unfold exec. destruct (alive w) eqn:Ha; [|intros Hd; congruence].
  destruct e as [s|i|in_|in_|]; simpl; intros Hal.
  - destruct (deliver_counters s w) as [-> ->]. split; [lia|]. intros r. lia.
  - destruct (step_frame i w) as (_ & _ & _ & _ & -> & -> & _).
    split; [lia|]. intros r. lia.
  - destruct (nil_or_all_valid (vpc_answer w)) as [[base Hvpc]|Hnil].
    + destruct (AddNetwork_run in_ w base Hvpc) as (w' & Hrun & Hadd & Hdel & _).
      rewrite Hrun. simpl. rewrite Hadd, Hdel. split; [lia|]. intros r. lia.
    + destruct (AddNetwork_panic_world in_ w Hnil) as (entries & Hp).
      rewrite Hp in Hal. simpl in Hal. discriminate.
  - destruct (DelNetwork_run in_ w) as (w' & Hrun & _ & Hdel & Hadd & _).
    rewrite Hrun. simpl. rewrite Hadd, Hdel. split; [lia|]. intros r.
    destruct (decide (DelNetworkRequest.Reason in_ = r)) as [<-|Hne].
    + rewrite lookup_insert_eq, bool_decide_eq_true_2 by reflexivity. simpl. lia.
    + rewrite lookup_insert_ne by exact Hne.
      rewrite bool_decide_eq_false_2 by exact Hne. simpl. lia.
  - destruct (RunRPCHandler_world w) as (entries & ->). simpl.
    split; [lia|]. intros r. lia.
Qed.

(** X12.  The counters count the calls: along a schedule the process
    survives, signals, goroutine steps and bring-ups leave both counters
    alone, the address-assigned counter grows by the number of
    AddNetwork calls, and for every reason the release counter of that
    label grows by the number of DelNetwork calls made with that
    reason. *)
Theorem counters_count_calls (sched : list Event) : ∀ w,
  alive (run sched w) = true →
  addIPCnt (run sched w) = (addIPCnt w + N.of_nat (attach_calls sched))%N
  ∧ ∀ reason,
      default 0%N (delIPCnt (run sched w) !! reason)
      = (default 0%N (delIPCnt w !! reason) + N.of_nat (detach_calls reason sched))%N.
Proof.
  induction sched as [|e sched IH]; intros w Hal.
  - simpl. split; [lia|]. intros r. lia.
  - rewrite run_cons in *.
    assert (Hstep : alive (exec e w) = true).
    { destruct (alive (exec e w)) eqn:Hd; [reflexivity|].
      rewrite run_dead in Hal by exact Hd. congruence. }
    destruct (IH (exec e w) Hal) as [Hadd Hdel].
    destruct (exec_counters e w Hstep) as [Hadd1 Hdel1].
    split.
    + rewrite Hadd, Hadd1. simpl. destruct e; simpl; lia.
    + intros r. rewrite Hdel, Hdel1. simpl.
      destruct e; simpl; lia.
Qed.

(** X13.  What the handlers reach.  DelNetwork neither calls nor
    changes the AWS client and the network client; its second unassign
    call runs on the store as the first one left it, and the store it
    leaves is the one its last call left.  AddNetwork (the VPC ranges
    being valid pointers) leaves the store as the assign call left it,
    whatever that call answered: after a failed assignment it calls
    nothing to undo it, and it never calls unassign.  Neither handler
    touches the Termination State, the server, the goroutines or the
    other handler's counter. *)
Theorem handlers_footprint
    (a : AddNetworkRequest.t) (d : DelNetworkRequest.t) w :
  (∃ reply w',
     DelNetwork d w = Returned (reply, nil_error) w'
     ∧ dataStore (ipamContext w')
       = (if bool_decide ((first_unassign d w).2 = datastore_ErrUnknownPod)
          then (UnassignPodIPv4Address (fallback_identity d)
                  (UnassignPodIPv4Address (full_identity d)
                     (dataStore (ipamContext w))).2).2
          else (UnassignPodIPv4Address (full_identity d)
                  (dataStore (ipamContext w))).2)
     ∧ awsClient (ipamContext w') = awsClient (ipamContext w)
     ∧ networkClient (ipamContext w') = networkClient (ipamContext w)
     ∧ terminating (ipamContext w') = terminating (ipamContext w)
     ∧ addIPCnt w' = addIPCnt w
     ∧ grpcServer w' = grpcServer w
     ∧ listeners w' = listeners w)
  ∧ (∀ base : list string, vpc_answer w = Some <$> base →
     ∃ reply w',
       AddNetwork a w = Returned (reply, nil_error) w'
       ∧ dataStore (ipamContext w')
         = (AssignPodIPv4Address (add_identity a) (dataStore (ipamContext w))).2
       ∧ Forall (fun c => is_unassign c = false) (drop (length (calls w)) (calls w'))
       ∧ terminating (ipamContext w') = terminating (ipamContext w)
       ∧ delIPCnt w' = delIPCnt w
       ∧ grpcServer w' = grpcServer w
       ∧ listeners w' = listeners w).
Proof.
  split.
  - destruct (DelNetwork_return_world d w) as (entries & Hrun).
    eexists. eexists. split; [exact Hrun|]. simpl. repeat split; reflexivity.
  - intros base Hvpc.
    destruct (AddNetwork_return_world a w base Hvpc) as (entries & Hrun).
    eexists. eexists. split; [exact Hrun|]. simpl.
    split; [reflexivity|]. split; [|repeat split; reflexivity].
    rewrite drop_app_length.
    destruct (snat_answer w); repeat constructor.
Qed.

End MoreOnSchedules.

(** ** The further theorems at work on scripted collaborators *)

Lemma DelNetwork_reply_source_restarted :
  ∃ reply w',
    DelNetwork example_del world_restarted = Returned (reply, nil_error) w'
    ∧ DelNetworkReply.Success reply = true
    ∧ DelNetworkReply.IPv4Addr reply = "10.0.1.5"
    ∧ DelNetworkReply.DeviceNumber reply = 1%Z.
Proof.
  destruct (DelNetwork_reply_source example_del world_restarted)
    as (reply & w' & Hrun & _ & Hsecond).
  assert (Hunk : (first_unassign example_del world_restarted).2 = datastore_ErrUnknownPod)
    by reflexivity.
  destruct (Hsecond Hunk) as (Haddr & Hdev & Hsucc).
  exists reply, w'. split; [exact Hrun|].
  split; [apply Hsucc; reflexivity|]. split; [exact Haddr|exact Hdev].
Defined.

Lemma AddNetwork_nil_range_panics_scripted :
  ∃ w',
    AddNetwork example_add world_nil_range = Panicked w'
    ∧ dataStore (ipamContext w') = []
    ∧ calls w' = [CallAssign (mkPodInfo "pod-a" "ns1" "c1"); CallGetVPCIPv4CIDRs]
    ∧ addIPCnt w' = 0%N.
Proof.
  destruct (AddNetwork_nil_range_panics example_add world_nil_range) as [_ Hpanic].
  assert (Hnil : None ∈ vpc_answer world_nil_range).
  { apply elem_of_cons. right. apply elem_of_cons. left. reflexivity. }
  destruct (Hpanic Hnil) as (w' & Hrun & Hds & Hcalls & Hadd & _).
  exists w'. split; [exact Hrun|]. split; [exact Hds|]. split; [exact Hcalls|exact Hadd].
Defined.

Lemma AddNetwork_same_identity_other_interface :
  returned (AddNetwork example_add world_assigned)
  = returned (AddNetwork (AddNetworkRequest.mk "pod-a" "ns1" "c1" "/proc/77/ns/net" "net1")
                world_assigned).
Proof.
  assert (Hid : add_identity example_add
                = add_identity (AddNetworkRequest.mk "pod-a" "ns1" "c1" "/proc/77/ns/net" "net1"))
    by reflexivity.
  exact (proj1 (AddNetwork_same_identity example_add _ world_assigned Hid)).
Defined.

Lemma DelNetwork_same_identity_other_address :
  returned (DelNetwork example_del world_restarted)
  = returned (DelNetwork (DelNetworkRequest.mk "pod-a" "ns1" "c1" "10.9.9.9" "Evicted")
                world_restarted).
Proof.
  assert (Hid : full_identity example_del
                = full_identity (DelNetworkRequest.mk "pod-a" "ns1" "c1" "10.9.9.9" "Evicted"))
    by reflexivity.
  exact (proj1 (DelNetwork_same_identity example_del _ world_restarted Hid)).
Defined.

Lemma DeviceNumber_int32_big_device :
  ∃ reply w',
    AddNetwork example_add world_big_device = Returned (reply, nil_error) w'
    ∧ (- 2 ^ 31 ≤ AddNetworkReply.DeviceNumber reply < 2 ^ 31)%Z
    ∧ AddNetworkReply.DeviceNumber reply ≠ (2 ^ 31)%Z.
Proof.
  destruct (DeviceNumber_int32 example_add example_del world_big_device) as [Hadd _].
  assert (Hvpc : vpc_answer world_big_device = Some <$> ["10.0.0.0/16"]) by reflexivity.
  destruct (Hadd ["10.0.0.0/16"] Hvpc) as (reply & w' & Hrun & Hrange & _ & Hfixed).
  exists reply, w'. split; [exact Hrun|]. split; [exact Hrange|].
  intros Heq.
  assert (Hdev : (assign_answer example_add world_big_device).1.2 = (2 ^ 31)%Z)
    by reflexivity.
  rewrite Hdev in Hfixed. apply Hfixed in Heq. lia.
Defined.

Lemma RunRPCHandler_listen_fails_port_taken :
  ∃ w',
    RunRPCHandler world_port_taken
    = Returned (Finished (Some (ErrWrap
        (ErrOther "listen tcp 127.0.0.1:50051: bind: address already in use")
        "ipamd: failed to listen to gRPC port"))) w'
    ∧ grpcServer w' = None
    ∧ listeners w' = [].
Proof.
  assert (Hl : listen_answer world_port_taken
               = Some (ErrOther "listen tcp 127.0.0.1:50051: bind: address already in use"))
    by reflexivity.
  destruct (RunRPCHandler_listen_fails world_port_taken _ Hl)
    as (w' & Hrun & _ & Hsrv & Hls & _).
  exists w'. split; [exact Hrun|]. split; [exact Hsrv|exact Hls].
Defined.

Lemma RunRPCHandler_starts_service_serve_fails :
  ∃ w',
    RunRPCHandler world_serve_fails
    = Returned (Finished (Some (ErrWrap
        (ErrOther "accept tcp 127.0.0.1:50051: too many open files")
        "ipamd: failed to start server on gPRC port"))) w'
    ∧ listeners w' = [new_listener].
Proof.
  assert (Hl : listen_answer world_serve_fails = nil_error) by reflexivity.
  destruct (RunRPCHandler_starts_service world_serve_fails Hl)
    as (w' & s & Hrun & _ & _ & _ & Hls & _).
  exists w'. split; [exact Hrun|exact Hls].
Defined.

Lemma health_stays_serving_after_sigterm :
  flag (run (EvSignal SIGTERM :: replicate 3 (EvListener 0)) world_serving) = true
  ∧ ∃ s,
      grpcServer (run (EvSignal SIGTERM :: replicate 3 (EvListener 0)) world_serving)
      = Some s
      ∧ health s !! "grpc.health.v1.aws-node" = Some true
      ∧ stopped s = false.
Proof.
  split; [reflexivity|].
  assert (Hs : serving world_serving).
  { intros s [= <-]. split; reflexivity. }
  eexists. split; [reflexivity|].
  apply (health_stays_serving (EvSignal SIGTERM :: replicate 3 (EvListener 0))
           world_serving Hs).
  reflexivity.
Defined.

Lemma goroutine_registration_serving :
  ∃ l, listeners world_serving !! 0 = Some l
       ∧ pc l = AtReceive
       ∧ notified l = [SIGINT; SIGTERM].
Proof.
  assert (Hall : Forall as_coded (listeners world_assigned)) by constructor.
  eexists. split; [reflexivity|]. split; [reflexivity|].
  destruct (goroutine_registration (EvRunRPCHandler :: replicate 4 (EvListener 0))
              world_assigned Hall 0 (mkListener AtReceive [] [SIGINT; SIGTERM]))
    as (_ & _ & _ & Hboth & _); [reflexivity|].
  apply Hboth. left. reflexivity.
Defined.

Lemma signal_during_setup_kept_sigint :
  pc <$> listeners world_registering !! 0 = Some AtNotifyTERM
  ∧ flag (run (EvSignal SIGINT :: replicate 4 (EvListener 0)) world_registering) = true.
Proof.
  split; [reflexivity|].
  apply (signal_during_setup_kept 0 SIGINT (replicate 4 (EvListener 0))
           world_registering (mkListener AtNotifyTERM [] [SIGINT])).
  - reflexivity.
  - reflexivity.
  - left. reflexivity.
  - apply elem_of_cons. left. reflexivity.
  - simpl. lia.
  - reflexivity.
Defined.


Lemma counters_count_calls_scripted :
  let sched := [EvDelNetwork example_del; EvSignal SIGINT; EvAddNetwork example_add;
                EvDelNetwork example_del; EvListener 0] in
  addIPCnt (run sched world_serving) = 1%N
  ∧ default 0%N (delIPCnt (run sched world_serving) !! "PodDeleted") = 2%N
  ∧ default 0%N (delIPCnt (run sched world_serving) !! "Evicted") = 0%N.
Proof.
  intros sched.
  assert (Hal : alive (run sched world_serving) = true) by reflexivity.
  destruct (counters_count_calls sched world_serving Hal) as [Hadd Hdel].
  split; [exact Hadd|]. split; [exact (Hdel "PodDeleted")|exact (Hdel "Evicted")].
Defined.

Lemma handlers_footprint_exhausted :
  ∃ reply w',
    AddNetwork example_add world_exhausted = Returned (reply, nil_error) w'
    ∧ dataStore (ipamContext w') = []
    ∧ Forall (fun c => is_unassign c = false) (calls w').
Proof.
  destruct (handlers_footprint example_add example_del world_exhausted) as [_ Hadd].
  assert (Hvpc : vpc_answer world_exhausted = Some <$> ["10.0.0.0/16"; "10.1.0.0/16"])
    by reflexivity.
  destruct (Hadd _ Hvpc) as (reply & w' & Hrun & Hds & Hnone & _).
  exists reply, w'. split; [exact Hrun|]. split; [exact Hds|exact Hnone].
Defined.
